(** * Telepush: a shallow embedding of [src/index.ts]

    The client has two operations: the constructor of [Telepush], which
    validates and normalises a configuration, and [push], which validates the
    text, builds the [sendMessage] payload, arms an optional abort timer,
    performs one [fetch] and interprets the answer.

    JavaScript values are modelled at the types declared in the source, widened
    where the source itself tests for more ([config?.], [chatId === null],
    truthiness of [parseMode]).  Effects (timers, the abort controller, the
    network) are threaded through an explicit [World]. *)

From Stdlib Require Import ZArith List Bool Ascii String Lia.
From stdpp Require Import base option list gmap strings pretty.

Local Open Scope Z_scope.

(** ** JavaScript strings

    A JavaScript string is a sequence of UTF-16 code units. *)

Definition jsstring := list N.

Definition lit (s : string) : jsstring :=
  List.map N_of_ascii (list_ascii_of_string s).
Arguments lit : simpl never.

(** [!s] for a string: only the empty string is falsy. *)
Definition truthy_string (s : jsstring) : bool :=
  match s with [] => false | _ :: _ => true end.

(** ECMAScript WhiteSpace and LineTerminator code points, the set that
    [String.prototype.trim] removes. *)
Definition is_white_space (c : N) : bool :=
  ((c =? 9) || (c =? 10) || (c =? 11) || (c =? 12) || (c =? 13) || (c =? 32)
   || (c =? 160) || (c =? 5760) || ((8192 <=? c) && (c <=? 8202))
   || (c =? 8232) || (c =? 8233) || (c =? 8239) || (c =? 8287)
   || (c =? 12288) || (c =? 65279))%N.

Fixpoint trimStart (s : jsstring) : jsstring :=
  match s with
  | [] => []
  | c :: rest => if is_white_space c then trimStart rest else s
  end.

Definition trimEnd (s : jsstring) : jsstring := rev (trimStart (rev s)).

Definition trim (s : jsstring) : jsstring := trimEnd (trimStart s).

Definition slash : N := 47%N.

(** [s.replace(/\/$/, "")]: the pattern has no [g] or [m] flag, so the scan
    from the left replaces the first slash that is followed by the end of the
    input, and nothing else. *)
Fixpoint replace_trailing_slash (s : jsstring) : jsstring :=
  match s with
  | [] => []
  | c :: rest =>
      match rest with
      | [] => if (c =? slash)%N then [] else [c]
      | _ :: _ => c :: replace_trailing_slash rest
      end
  end.

(** Template-literal conversion of an integer-valued number. *)
Definition number_to_string (n : Z) : jsstring := lit (pretty n).
Arguments number_to_string : simpl never.

(** ** Data model *)

(** [chatId: string | number]. *)
Inductive chat_id :=
| ChatString (s : jsstring)
| ChatNumber (n : Z).

(** What a caller may actually have put in [config.chatId]. *)
Inductive chat_field :=
| ChatUndefined
| ChatNull
| ChatGiven (c : chat_id).

(** [TelepushConfig]; [None] is an absent ([undefined] or [null]) field. *)
Module Config.
Record t := {
  botToken : option jsstring;
  chatId : chat_field;
  apiBaseUrl : option jsstring;
  defaultTimeoutMs : option Z
}.
End Config.

(** [PushOptions]; [None] is [undefined].  [parseMode] is kept as a string:
    the source tests its truthiness, and the command line passes it on
    unchecked. *)
Record PushOptions := {
  parseMode : option jsstring;
  disableNotification : option bool;
  protectContent : option bool;
  replyToMessageId : option Z;
  messageThreadId : option Z;
  disableWebPagePreview : option bool;
  timeoutMs : option Z
}.

(** The default value [{}] of the [options] parameter. *)
Definition no_options : PushOptions :=
  {| parseMode := None; disableNotification := None; protectContent := None;
     replyToMessageId := None; messageThreadId := None;
     disableWebPagePreview := None; timeoutMs := None |}.

(** [SendMessageResult]. *)
Record SendMessageResult := {
  message_id : Z;
  date : Z;
  text : option jsstring
}.

(** [TelegramResponse<SendMessageResult>]. *)
Record TelegramResponse := {
  ok : bool;
  result : option SendMessageResult;
  description : option jsstring;
  error_code : option Z
}.

(** [TelepushError]: [name] is always ["TelepushError"]. *)
Record TelepushError := {
  message : jsstring;
  status : option Z;
  code : option Z
}.

(** [new TelepushError(message, status?, code?)]. *)
Definition new_TelepushError (m : jsstring) (s c : option Z) : TelepushError :=
  {| message := m; status := s; code := c |}.

(** Anything a JavaScript [throw] or a rejected promise can carry, as far as
    the [catch] block of [push] can tell values apart. *)
Inductive thrown :=
| ThrownTelepush (e : TelepushError)
| ThrownError (name msg : jsstring)
| ThrownOther.

(** The client object. *)
Record Telepush := {
  botToken : jsstring;
  chatId : chat_id;
  apiBaseUrl : jsstring;
  defaultTimeoutMs : option Z
}.

(** Values stored in the request payload. *)
Inductive js_value :=
| JsString (s : jsstring)
| JsNumber (n : Z)
| JsBoolean (b : bool).

Definition chat_value (c : chat_id) : js_value :=
  match c with
  | ChatString s => JsString s
  | ChatNumber n => JsNumber n
  end.

(** ** The transport

    A promise handed out by the platform either fulfils, rejects, or does not
    settle by itself before the deadline of any timer of this call (a slow or
    hung request). *)
Inductive settle (A : Type) :=
| Fulfils (a : A)
| Rejects (e : thrown)
| Stalls.
Arguments Fulfils {A} a.
Arguments Rejects {A} e.
Arguments Stalls {A}.

Module Response.
Record t := {
  ok : bool;
  status : Z;
  json : settle TelegramResponse
}.
End Response.

(** What [fetch] does for a given URL and JSON body (the body is kept as the
    object passed to [JSON.stringify]: every value stored in it is a string, a
    number or a boolean, so stringification keeps every key). *)
Definition Transport := jsstring -> gmap string js_value -> settle Response.t.

(** [Response.ok] as the Fetch standard defines it. *)
Definition is_2xx (st : Z) : bool := (200 <=? st) && (st <=? 299).

Definition http_response (st : Z) (body : settle TelegramResponse) : Response.t :=
  {| Response.ok := is_2xx st; Response.status := st; Response.json := body |}.

(** ** World and effects *)

Inductive event :=
| EvSetTimeout (handle controller : nat) (ms : Z)
| EvFetch (url : jsstring) (body : gmap string js_value) (signal : nat)
| EvAbort (controller : nat)
| EvClearTimeout (handle : nat).

(** [timers] holds the armed timers: the handle returned by [setTimeout] and
    the controller that its callback [() => controller.abort()] aborts. *)
Record World := {
  next_controller : nat;
  next_timer : nat;
  timers : list (nat * nat);
  log : list event
}.

(** How an [async] body ends: it returns, it throws, or it never settles. *)
Inductive completion (A : Type) :=
| Normal (a : A)
| Throw (e : thrown)
| Pending.
Arguments Normal {A} a.
Arguments Throw {A} e.
Arguments Pending {A}.

Definition Js (A : Type) : Type := World -> completion A * World.

Definition ret {A} (a : A) : Js A := fun w => (Normal a, w).

Definition throw {A} (e : thrown) : Js A := fun w => (Throw e, w).

Definition bind {A B} (m : Js A) (k : A -> Js B) : Js B :=
  fun w =>
    match m w with
    | (Normal a, w') => k a w'
    | (Throw e, w') => (Throw e, w')
    | (Pending, w') => (Pending, w')
    end.

Notation "'let*' x ':=' m 'in' k" := (bind m (fun x => k))
  (at level 10, x name, m at level 100, k at level 200, only parsing).

(** [try { body } catch (err) { handler err }]. *)
Definition try_catch {A} (body : Js A) (handler : thrown -> Js A) : Js A :=
  fun w =>
    match body w with
    | (Throw e, w') => handler e w'
    | other => other
    end.

(** [try { body } finally { cleanup }]: the cleanup runs once the body has
    completed, and the body's completion stands unless the cleanup itself
    does not complete normally.  A body that never settles never reaches it. *)
Definition try_finally {A} (body : Js A) (cleanup : Js unit) : Js A :=
  fun w =>
    match body w with
    | (Pending, w') => (Pending, w')
    | (c, w') =>
        match cleanup w' with
        | (Normal _, w'') => (c, w'')
        | (Throw e, w'') => (Throw e, w'')
        | (Pending, w'') => (Pending, w'')
        end
    end.

Definition emit (e : event) (w : World) : World :=
  {| next_controller := next_controller w; next_timer := next_timer w;
     timers := timers w; log := log w ++ [e] |}.

(** [new AbortController()]. *)
Definition new_AbortController : Js nat :=
  fun w =>
    (Normal (next_controller w),
     {| next_controller := S (next_controller w); next_timer := next_timer w;
        timers := timers w; log := log w |}).

(** [setTimeout(() => controller.abort(), ms)]. *)
Definition setTimeout_abort (controller : nat) (ms : Z) : Js nat :=
  fun w =>
    let h := next_timer w in
    (Normal h,
     {| next_controller := next_controller w; next_timer := S h;
        timers := (h, controller) :: timers w;
        log := log w ++ [EvSetTimeout h controller ms] |}).

Definition disarm (h : nat) (ts : list (nat * nat)) : list (nat * nat) :=
  List.filter (fun t => negb (Nat.eqb (fst t) h)) ts.
Arguments disarm : simpl never.

(** [clearTimeout(h)]; clearing a timer that already ran does nothing. *)
Definition clearTimeout (h : nat) : Js unit :=
  fun w =>
    (Normal tt,
     {| next_controller := next_controller w; next_timer := next_timer w;
        timers := disarm h (timers w); log := log w ++ [EvClearTimeout h] |}).

(** The [DOMException] with which an aborted [fetch] rejects. *)
Definition abort_reason : thrown :=
  ThrownError (lit "AbortError") (lit "This operation was aborted").

(** [await p] for a promise [p] tied to the abort signal [signal].  A stalled
    promise settles only through a timer armed on that signal: the timer
    runs (and so leaves the set of armed timers), its callback aborts the
    controller, and the promise rejects with [abort_reason]. *)
Definition await_abortable {A} (signal : nat) (p : settle A) : Js A :=
  fun w =>
    match p with
    | Fulfils a => (Normal a, w)
    | Rejects e => (Throw e, w)
    | Stalls =>
        match List.find (fun t => Nat.eqb (snd t) signal) (timers w) with
        | Some (h, _) =>
            (Throw abort_reason,
             {| next_controller := next_controller w;
                next_timer := next_timer w;
                timers := disarm h (timers w);
                log := log w ++ [EvAbort signal] |})
        | None => (Pending, w)
        end
    end.

(** [await fetch(url, { method: "POST", headers, body, signal })]. *)
Definition fetch (net : Transport) (url : jsstring)
    (body : gmap string js_value) (signal : nat) : Js Response.t :=
  fun w => await_abortable signal (net url body) (emit (EvFetch url body signal) w).

(** ** The constructor *)

Definition default_api_base : jsstring := lit "https://api.telegram.org".

Definition validation_error (m : string) : thrown :=
  ThrownTelepush (new_TelepushError (lit m) None None).

(** [a ?? b]. *)
Definition nullish {A} (a : option A) (b : A) : A :=
  match a with Some x => x | None => b end.

(** [config?.botToken]. *)
Definition config_botToken (config : option Config.t) : option jsstring :=
  match config with
  | Some c => Config.botToken c
  | None => None
  end.

(** [config?.chatId]. *)
Definition config_chatId (config : option Config.t) : chat_field :=
  match config with
  | Some c => Config.chatId c
  | None => ChatUndefined
  end.

(** [new Telepush(config)].  The two guards are pattern matches: past them the
    token is a non-empty string and the chat id a string or a number. *)
Definition constructor (config : option Config.t) : Js Telepush :=
  match config_botToken config with
  | None => throw (validation_error "botToken is required")
  | Some token =>
      if negb (truthy_string token)
      then throw (validation_error "botToken is required")
      else
        match config_chatId config with
        | ChatUndefined => throw (validation_error "chatId is required")
        | ChatNull => throw (validation_error "chatId is required")
        | ChatGiven (ChatString []) => throw (validation_error "chatId is required")
        | ChatGiven cid =>
            ret {| botToken := token;
                   chatId := cid;
                   apiBaseUrl :=
                     replace_trailing_slash
                       (nullish (config ≫= Config.apiBaseUrl) default_api_base);
                   defaultTimeoutMs := config ≫= Config.defaultTimeoutMs |}
        end
  end.

(** [createTelepush]. *)
Definition createTelepush (config : option Config.t) : Js Telepush :=
  constructor config.

(** ** [push] *)

(** [if (cond) payload[key] = value]. *)
Definition set_if (cond : bool) (key : string) (value : js_value)
    (payload : gmap string js_value) : gmap string js_value :=
  if cond then <[key := value]> payload else payload.

(** [if (field !== undefined) payload[key] = field]. *)
Definition set_defined {A} (field : option A) (inj : A -> js_value)
    (key : string) (payload : gmap string js_value) : gmap string js_value :=
  match field with
  | Some v => <[key := inj v]> payload
  | None => payload
  end.

(** [if (options.parseMode) payload.parse_mode = options.parseMode]: a
    truthiness test, so an empty string is skipped like [undefined]. *)
Definition set_parse_mode (field : option jsstring)
    (payload : gmap string js_value) : gmap string js_value :=
  match field with
  | Some m => set_if (truthy_string m) "parse_mode" (JsString m) payload
  | None => payload
  end.

(** The object literal [{ chat_id: this.chatId, text }] followed by the six
    conditional assignments, in source order. *)
Definition build_payload (this : Telepush) (txt : jsstring)
    (options : PushOptions) : gmap string js_value :=
  let payload := <["text" := JsString txt]>
                   (<["chat_id" := chat_value (chatId this)]> ∅) in
  let payload := set_parse_mode (parseMode options) payload in
  let payload := set_defined (disableNotification options) JsBoolean
                   "disable_notification" payload in
  let payload := set_defined (protectContent options) JsBoolean
                   "protect_content" payload in
  let payload := set_defined (replyToMessageId options) JsNumber
                   "reply_to_message_id" payload in
  let payload := set_defined (messageThreadId options) JsNumber
                   "message_thread_id" payload in
  set_defined (disableWebPagePreview options) JsBoolean
    "disable_web_page_preview" payload.

(** [options.timeoutMs ?? this.defaultTimeoutMs]. *)
Definition effective_timeout (this : Telepush) (options : PushOptions)
    : option Z :=
  match timeoutMs options with
  | Some ms => Some ms
  | None => defaultTimeoutMs this
  end.

(** [timeoutMs && timeoutMs > 0]. *)
Definition timer_wanted (t : option Z) : bool :=
  match t with
  | Some ms => negb (ms =? 0) && (0 <? ms)
  | None => false
  end.

(** [if (timeoutMs && timeoutMs > 0) timeout = setTimeout(...)]; the result is
    the variable [timeout], [None] while it is still [undefined]. *)
Definition arm_timer (controller : nat) (t : option Z) : Js (option nat) :=
  match t with
  | Some ms =>
      if timer_wanted t
      then let* h := setTimeout_abort controller ms in ret (Some h)
      else ret None
  | None => ret None
  end.

Definition request_url (this : Telepush) : jsstring :=
  apiBaseUrl this ++ lit "/bot" ++ botToken this ++ lit "/sendMessage".

(** The three checks on a decoded answer, and the final [return data.result]. *)
Definition interpret (response : Response.t) (data : TelegramResponse)
    : Js SendMessageResult :=
  if negb (Response.ok response) then
    throw (ThrownTelepush
             (new_TelepushError
                (nullish (description data)
                   (lit "HTTP " ++ number_to_string (Response.status response)))
                (Some (Response.status response))
                (error_code data)))
  else if negb (ok data) then
    throw (ThrownTelepush
             (new_TelepushError
                (nullish (description data) (lit "Telegram API error"))
                (Some (Response.status response))
                (error_code data)))
  else
    match result data with
    | None =>
        throw (ThrownTelepush
                 (new_TelepushError
                    (lit "Telegram API returned no result")
                    (Some (Response.status response))
                    (error_code data)))
    | Some r => ret r
    end.

(** The body of the [try] block. *)
Definition request_phase (net : Transport) (url : jsstring)
    (payload : gmap string js_value) (controller : nat)
    : Js SendMessageResult :=
  let* response := fetch net url payload controller in
  let* data := await_abortable controller (Response.json response) in
  interpret response data.

(** The [catch (err)] block. *)
Definition on_catch (err : thrown) : Js SendMessageResult :=
  match err with
  | ThrownTelepush e => throw (ThrownTelepush e)
  | ThrownError name msg =>
      if bool_decide (name = lit "AbortError")
      then throw (ThrownTelepush
                    (new_TelepushError (lit "Request timed out") None None))
      else throw (ThrownTelepush (new_TelepushError msg None None))
  | ThrownOther =>
      throw (ThrownTelepush (new_TelepushError (lit "Unknown error") None None))
  end.

(** The [finally] block: [if (timeout) clearTimeout(timeout)]. *)
Definition on_finally (timeout : option nat) : Js unit :=
  match timeout with
  | Some h => clearTimeout h
  | None => ret tt
  end.

Definition push (this : Telepush) (net : Transport) (txt : jsstring)
    (options : PushOptions) : Js SendMessageResult :=
  if negb (truthy_string txt) || (length (trim txt) =? 0)%nat then
    throw (validation_error "text must be a non-empty string")
  else
    let payload := build_payload this txt options in
    let* controller := new_AbortController in
    let timeoutMs := effective_timeout this options in
    let* timeout := arm_timer controller timeoutMs in
    let url := request_url this in
    try_finally
      (try_catch (request_phase net url payload controller) on_catch)
      (on_finally timeout).

(** ** Sample values

    Concrete inputs on which the properties below are exercised. *)

Definition empty_world : World :=
  {| next_controller := 0; next_timer := 0; timers := []; log := [] |}.

Definition sample_config : Config.t :=
  {| Config.botToken := Some (lit "token");
     Config.chatId := ChatGiven (ChatString (lit "123"));
     Config.apiBaseUrl := None;
     Config.defaultTimeoutMs := None |}.

Definition sample_client : Telepush :=
  {| botToken := lit "token"; chatId := ChatString (lit "123");
     apiBaseUrl := lit "https://api.telegram.org"; defaultTimeoutMs := None |}.

(** A configuration whose base URL ends in two slashes. *)
Definition slashed_config : Config.t :=
  {| Config.botToken := Some (lit "token");
     Config.chatId := ChatGiven (ChatNumber 0);
     Config.apiBaseUrl := Some (lit "https://example.org//");
     Config.defaultTimeoutMs := Some 5000 |}.

Definition slashed_client : Telepush :=
  {| botToken := lit "token"; chatId := ChatNumber 0;
     apiBaseUrl := lit "https://example.org/"; defaultTimeoutMs := Some 5000 |}.

(** Options in which the caller set [parseMode] to the empty string, as the
    command line does for [--parse-mode ""]. *)
Definition empty_mode_options : PushOptions :=
  {| parseMode := Some []; disableNotification := None; protectContent := None;
     replyToMessageId := None; messageThreadId := None;
     disableWebPagePreview := None; timeoutMs := None |}.

(** The answer [{ok: true, result: {message_id: 1, date: 1700000000,
    text: "hello"}}] with HTTP 200. *)
Definition hello_result : SendMessageResult :=
  {| message_id := 1; date := 1700000000; text := Some (lit "hello") |}.

Definition hello_data : TelegramResponse :=
  {| ok := true; result := Some hello_result; description := None;
     error_code := None |}.

Definition hello_transport : Transport :=
  fun _ _ => Fulfils (http_response 200 (Fulfils hello_data)).

(** HTTP 400 with [{ok: false, description: "bad request", error_code: 400}]. *)
Definition bad_request_data : TelegramResponse :=
  {| ok := false; result := None; description := Some (lit "bad request");
     error_code := Some 400 |}.

Definition bad_request_transport : Transport :=
  fun _ _ => Fulfils (http_response 400 (Fulfils bad_request_data)).

(** HTTP 200 with [{ok: false}]. *)
Definition refused_data : TelegramResponse :=
  {| ok := false; result := None; description := None; error_code := None |}.

Definition refused_transport : Transport :=
  fun _ _ => Fulfils (http_response 200 (Fulfils refused_data)).

(** A transport that never answers, and options with [timeoutMs: 10]. *)
Definition silent_transport : Transport := fun _ _ => Stalls.

Definition ten_ms_options : PushOptions :=
  {| parseMode := None; disableNotification := None; protectContent := None;
     replyToMessageId := None; messageThreadId := None;
     disableWebPagePreview := None; timeoutMs := Some 10 |}.

(** Options with [timeoutMs: 0]. *)
Definition zero_ms_options : PushOptions :=
  {| parseMode := None; disableNotification := None; protectContent := None;
     replyToMessageId := None; messageThreadId := None;
     disableWebPagePreview := None; timeoutMs := Some 0 |}.

(** A transport that fails with [TypeError: fetch failed]. *)
Definition broken_transport : Transport :=
  fun _ _ => Rejects (ThrownError (lit "TypeError") (lit "fetch failed")).

(** ** Bookkeeping on worlds

    Measures used to state what a call does to the world around it. *)

(** The number of requests in a log. *)
Fixpoint count_fetches (evs : list event) : nat :=
  match evs with
  | [] => 0%nat
  | EvFetch _ _ _ :: rest => S (count_fetches rest)
  | _ :: rest => count_fetches rest
  end.

(** Handles and controllers are handed out in increasing order, so the armed
    timers of a world reached by running the program all lie below its two
    counters. *)
Definition fresh_ids (w : World) : bool :=
  forallb (fun t => (fst t <? next_timer w)%nat
                    && (snd t <? next_controller w)%nat)
    (timers w).
Arguments fresh_ids : simpl never.

(** A world in which another call has a timer armed. *)
Definition busy_world : World :=
  {| next_controller := 1; next_timer := 1; timers := [(0%nat, 0%nat)];
     log := [] |}.

(** ** The command line ([cli.ts]) *)

(** A number as the command line obtains one from a string: a finite value,
    taken integer-valued like every number of this development, or one of
    [NaN], [Infinity], [-Infinity]. *)
Inductive js_number :=
| Finite (n : Z)
| NotFinite.

(** [process.env], as far as the command line reads it. *)
Record Env := {
  TELEGRAM_BOT_TOKEN : option jsstring;
  TELEGRAM_CHAT_ID : option jsstring
}.

(** What the process writes: [console.log] of a string, [console.error] of a
    string, [console.error] of a value that is not a string. *)
Inductive output :=
| Stdout (s : jsstring)
| Stderr (s : jsstring)
| StderrValue (v : thrown).

(** How the process ends: [process.exit(code)] or the end of the script's
    work (code [0]), an exception nobody caught, or never. *)
Inductive ending :=
| Exited (exit_code : Z)
| Uncaught (err : thrown)
| Waiting.

Record Run := {
  printed : list output;
  ended : ending;
  final_world : World
}.

Definition line (s : string) : jsstring := lit s ++ [10%N].

(** The template literal printed by [printHelp]. *)
Definition help_text : jsstring :=
  lit "telepush send " ++ [34%N] ++ lit "message" ++ [34%N]
  ++ line " [options]"
  ++ line ""
  ++ line "Options:"
  ++ line "  --token <token>        Telegram bot token (or TELEGRAM_BOT_TOKEN)"
  ++ line "  --chat-id <id>         Telegram chat id (or TELEGRAM_CHAT_ID)"
  ++ line "  --parse-mode <mode>    Markdown | MarkdownV2 | HTML"
  ++ line "  --silent               Disable notification"
  ++ line "  --timeout <ms>         Request timeout in ms"
  ++ line "  --help                 Show help".

(** [printHelp()]. *)
Definition printHelp : list output := [Stdout help_text].

Fixpoint indexOf_from (args : list jsstring) (flag : jsstring) (i : Z) : Z :=
  match args with
  | [] => -1
  | a :: rest =>
      if bool_decide (a = flag) then i else indexOf_from rest flag (i + 1)
  end.

(** [args.indexOf(flag)]. *)
Definition indexOf (args : list jsstring) (flag : jsstring) : Z :=
  indexOf_from args flag 0.

(** [args.includes(x)]. *)
Definition includes (args : list jsstring) (x : jsstring) : bool :=
  existsb (fun a => bool_decide (a = x)) args.

(** [args[i]]. *)
Definition element (args : list jsstring) (i : Z) : option jsstring :=
  if i <? 0 then None else args !! Z.to_nat i.
Arguments element : simpl never.

Definition getArgValue (args : list jsstring) (flag : jsstring)
    : option jsstring :=
  let index := indexOf args flag in
  if index =? -1 then None else element args (index + 1).

(** [a ?? b] for two optional values. *)
Definition nullish_option {A} (a b : option A) : option A :=
  match a with Some x => Some x | None => b end.

(** [err?.message ?? err], as [console.error] shows it. *)
Definition error_output (err : thrown) : output :=
  match err with
  | ThrownTelepush e => Stderr (message e)
  | ThrownError _ msg => Stderr msg
  | ThrownOther => StderrValue ThrownOther
  end.

(** The world in which the process starts. *)
Definition initial_world : World :=
  {| next_controller := 0; next_timer := 0; timers := []; log := [] |}.

Section CommandLine.

(** [Number(s)], the platform's conversion of a string. *)
Variable Number : jsstring -> js_number.

(** The options object of the call to [push]. *)
Definition cli_options (args : list jsstring) : PushOptions :=
  let parseMode := getArgValue args (lit "--parse-mode") in
  let silent := includes args (lit "--silent") in
  let timeoutRaw := getArgValue args (lit "--timeout") in
  let timeoutMs :=
    match timeoutRaw with
    | Some (c :: raw) => Some (Number (c :: raw))
    | _ => None
    end in
  {| parseMode := parseMode;
     disableNotification := if silent then Some true else None;
     protectContent := None;
     replyToMessageId := None;
     messageThreadId := None;
     disableWebPagePreview := None;
     timeoutMs := match timeoutMs with
                  | Some (Finite n) => Some n
                  | _ => None
                  end |}.

(** The script, from [process.argv.slice(2)] to the end of the process. *)
Definition cli (args : list jsstring) (env : Env) (net : Transport) : Run :=
  if (length args =? 0)%nat || includes args (lit "--help")
     || includes args (lit "-h")
  then
    {| printed := printHelp; ended := Exited 0; final_world := initial_world |}
  else if negb (bool_decide (element args 0 = Some (lit "send"))) then
    {| printed := Stderr (lit "Unknown command.") :: printHelp;
       ended := Exited 1; final_world := initial_world |}
  else
    match element args 1 with
    | Some (m :: msg) =>
        let token := nullish_option (getArgValue args (lit "--token"))
                       (TELEGRAM_BOT_TOKEN env) in
        let chatId := nullish_option (getArgValue args (lit "--chat-id"))
                        (TELEGRAM_CHAT_ID env) in
        match token, chatId with
        | Some (t :: tok), Some (c :: cid) =>
            match constructor
                    (Some {| Config.botToken := Some (t :: tok);
                             Config.chatId := ChatGiven (ChatString (c :: cid));
                             Config.apiBaseUrl := None;
                             Config.defaultTimeoutMs := None |})
                    initial_world with
            | (Normal client, w) =>
                match push client net (m :: msg) (cli_options args) w with
                | (Normal _, w') =>
                    {| printed := [Stdout (lit "sent")]; ended := Exited 0;
                       final_world := w' |}
                | (Throw err, w') =>
                    {| printed := [error_output err]; ended := Exited 1;
                       final_world := w' |}
                | (Pending, w') =>
                    {| printed := []; ended := Waiting; final_world := w' |}
                end
            | (Throw err, w) =>
                {| printed := []; ended := Uncaught err; final_world := w |}
            | (Pending, w) =>
                {| printed := []; ended := Waiting; final_world := w |}
            end
        | _, _ =>
            {| printed := Stderr (lit "Missing token or chat id.") :: printHelp;
               ended := Exited 1; final_world := initial_world |}
        end
    | _ =>
        {| printed := Stderr (lit "Message is required.") :: printHelp;
           ended := Exited 1; final_world := initial_world |}
    end.

End CommandLine.

(** ** The example program ([examples/basic/index.ts])

    [process.env.X!] is the variable as it is, [undefined] when unset; the
    program has no handler, so whatever is thrown ends it. *)
Definition example_config (env : Env) : Config.t :=
  {| Config.botToken := TELEGRAM_BOT_TOKEN env;
     Config.chatId :=
       match TELEGRAM_CHAT_ID env with
       | Some s => ChatGiven (ChatString s)
       | None => ChatUndefined
       end;
     Config.apiBaseUrl := None;
     Config.defaultTimeoutMs := None |}.

Definition example_program (env : Env) (net : Transport) : Run :=
  match constructor (Some (example_config env)) initial_world with
  | (Normal client, w) =>
      match push client net (lit "Example: hello from telepush") no_options
              w with
      | (Normal _, w') =>
          {| printed := []; ended := Exited 0; final_world := w' |}
      | (Throw err, w') =>
          {| printed := []; ended := Uncaught err; final_world := w' |}
      | (Pending, w') =>
          {| printed := []; ended := Waiting; final_world := w' |}
      end
  | (Throw err, w) =>
      {| printed := []; ended := Uncaught err; final_world := w |}
  | (Pending, w) =>
      {| printed := []; ended := Waiting; final_world := w |}
  end.

(** Sample command lines. *)
Definition decimal_ten (s : jsstring) : js_number :=
  if bool_decide (s = lit "10") then Finite 10 else NotFinite.

Definition sample_args : list jsstring :=
  [lit "send"; lit "hello"; lit "--token"; lit "abc"; lit "--chat-id";
   lit "42"; lit "--silent"; lit "--timeout"; lit "10"].

Definition sample_env : Env :=
  {| TELEGRAM_BOT_TOKEN := Some (lit "from-env");
     TELEGRAM_CHAT_ID := Some (lit "7") |}.

Definition no_env : Env :=
  {| TELEGRAM_BOT_TOKEN := None; TELEGRAM_CHAT_ID := None |}.

(** A command line whose message is a single space, and one whose token
    flag has an empty value. *)
Definition blank_args : list jsstring :=
  [lit "send"; lit " "; lit "--token"; lit "abc"; lit "--chat-id"; lit "42"].

Definition empty_token_args : list jsstring :=
  [lit "send"; lit "hello"; lit "--token"; []; lit "--chat-id"; lit "42"].

(** * Properties *)

(** ** Strings *)

Section Strings.

Lemma trimStart_nil (s : jsstring) :
  trimStart s = [] <-> forallb is_white_space s = true.
Proof.
  induction s as [|c rest IH]; simpl; [tauto|].
  destruct (is_white_space c); simpl; [exact IH|].
  split; discriminate.
Qed.

Lemma trimStart_keeps_content (s : jsstring) :
  forallb is_white_space (trimStart s) = forallb is_white_space s.
Proof.
  induction s as [|c rest IH]; simpl; [reflexivity|].
  destruct (is_white_space c) eqn:Hc; simpl; [exact IH|].
  now rewrite Hc.
Qed.

Lemma forallb_rev (f : N -> bool) (s : jsstring) :
  forallb f (rev s) = forallb f s.
Proof.
  induction s as [|c rest IH]; simpl; [reflexivity|].
  rewrite forallb_app, IH. simpl. rewrite andb_true_r. apply andb_comm.
Qed.

Lemma trim_nil (s : jsstring) :
  trim s = [] <-> forallb is_white_space s = true.
Proof.
  unfold trim, trimEnd.
  rewrite <- trimStart_keeps_content, <- (forallb_rev _ (trimStart s)),
    <- trimStart_nil.
  split; intros H.
  - apply (f_equal (@rev N)) in H. now rewrite rev_involutive in H.
  - now rewrite H.
Qed.

(** The guard [!text || text.trim().length === 0] holds exactly for the
    strings made of white space only (the empty one among them). *)
Lemma text_guard (s : jsstring) :
  negb (truthy_string s) || (length (trim s) =? 0)%nat
  = forallb is_white_space s.
Proof.
  destruct (forallb is_white_space s) eqn:Hs.
  - apply trim_nil in Hs. rewrite Hs. simpl. apply orb_true_r.
  - destruct s as [|c rest]; [discriminate|]. simpl negb. simpl orb.
    destruct (trim (c :: rest)) eqn:Ht; [|reflexivity].
    apply trim_nil in Ht. congruence.
Qed.

Lemma replace_trailing_slash_strips (u : jsstring) :
  replace_trailing_slash (u ++ [slash]) = u.
Proof.
  induction u as [|c rest IH]; [reflexivity|].
  change ((c :: rest) ++ [slash]) with (c :: (rest ++ [slash])).
  simpl. rewrite IH.
  destruct (rest ++ [slash]) eqn:E; [|reflexivity].
  now destruct rest.
Qed.

Lemma replace_trailing_slash_keeps (u : jsstring) :
  (forall v, u <> v ++ [slash]) -> replace_trailing_slash u = u.
Proof.
  induction u as [|c rest IH]; intros Hno; [reflexivity|].
  simpl. destruct rest as [|d rest'].
  - destruct (N.eqb_spec c slash) as [->|]; [|reflexivity].
    now destruct (Hno []).
  - f_equal. apply IH. intros v Hv. apply (Hno (c :: v)).
    simpl. now rewrite Hv.
Qed.

End Strings.

(** Case analysis on hypotheses built from [\/], [/\] and [exists]. *)
Ltac split_hyps :=
  repeat match goal with
         | H : _ \/ _ |- _ => destruct H
         | H : _ /\ _ |- _ => destruct H
         | H : exists _, _ |- _ => destruct H
         end.

(** ** The constructor *)

(** C8.  For a configuration that the constructor accepts, the stored base URL
    is ["https://api.telegram.org"] when [apiBaseUrl] is absent; otherwise it
    is [apiBaseUrl] with one trailing slash removed when it ends in a slash
    (whatever precedes that slash, another slash included, is kept), and
    [apiBaseUrl] unchanged when it does not end in a slash. *)
Theorem constructor_base_url (c : Config.t) (w : World) (client : Telepush) :
  fst (constructor (Some c) w) = Normal client ->
  (Config.apiBaseUrl c = None ->
     apiBaseUrl client = lit "https://api.telegram.org")
  /\ (forall u, Config.apiBaseUrl c = Some (u ++ [slash]) ->
        apiBaseUrl client = u)
  /\ (forall u, Config.apiBaseUrl c = Some u ->
        (forall v, u <> v ++ [slash]) -> apiBaseUrl client = u).
Proof.
  destruct c as [tok cid url dflt]. unfold constructor. simpl.
  destruct tok as [tok|]; [|discriminate].
  destruct (truthy_string tok); [|discriminate]. simpl.
  assert (Hret : forall cid',
    fst (ret (A := Telepush)
           {| botToken := tok; chatId := cid';
              apiBaseUrl := replace_trailing_slash (nullish url default_api_base);
              defaultTimeoutMs := dflt |} w) = Normal client ->
    apiBaseUrl client = replace_trailing_slash (nullish url default_api_base)).
  { intros cid' H. simpl in H. now inversion H. }
  intros H.
  assert (Hurl : apiBaseUrl client
                 = replace_trailing_slash (nullish url default_api_base)).
  { destruct cid as [| |[[|a s]|n]]; try discriminate; eapply Hret; exact H. }
  rewrite Hurl. repeat split.
  - intros ->. reflexivity.
  - intros u ->. apply replace_trailing_slash_strips.
  - intros u -> Hno. now apply replace_trailing_slash_keeps.
Qed.

Lemma constructor_base_url_witness :
  fst (constructor (Some slashed_config) empty_world) = Normal slashed_client
  /\ apiBaseUrl slashed_client = lit "https://example.org/".
Proof.
  split; [reflexivity|].
  apply (proj1 (proj2 (constructor_base_url slashed_config empty_world
                         slashed_client eq_refl))
           (lit "https://example.org/")).
  reflexivity.
Defined.

(** C4.  Construction fails with a validation error (no [status], no [code])
    exactly when the token is absent or empty, or the chat id is absent,
    [null] or the empty string, and succeeds otherwise; the number [0] is an
    accepted chat id; and construction leaves the world as it found it, so it
    performs no network activity. *)
Theorem constructor_validation (config : option Config.t) (w : World) :
  snd (constructor config w) = w
  /\ ((exists e, fst (constructor config w) = Throw (ThrownTelepush e)
                 /\ status e = None /\ code e = None)
      <-> (config_botToken config = None
           \/ config_botToken config = Some []
           \/ config_chatId config = ChatUndefined
           \/ config_chatId config = ChatNull
           \/ config_chatId config = ChatGiven (ChatString [])))
  /\ ((exists client, fst (constructor config w) = Normal client)
      <-> ~ (config_botToken config = None
             \/ config_botToken config = Some []
             \/ config_chatId config = ChatUndefined
             \/ config_chatId config = ChatNull
             \/ config_chatId config = ChatGiven (ChatString [])))
  /\ (forall token, config_botToken config = Some token -> token <> [] ->
        config_chatId config = ChatGiven (ChatNumber 0) ->
        exists client, fst (constructor config w) = Normal client
                       /\ chatId client = ChatNumber 0).
Proof.
  unfold constructor.
  destruct (config_botToken config) as [[|a tok]|];
    [| destruct (config_chatId config) as [| |[[|b s]|n]] |]; simpl.
  all: split; [reflexivity|].
  all: repeat split; intros; split_hyps; try discriminate; try congruence;
    try tauto; try (eexists; repeat split; reflexivity).
  all: try (exfalso; tauto).
  all: try (intros Hbad; split_hyps; discriminate).
  match goal with H : ChatGiven _ = ChatGiven _ |- _ => inversion H; subst end.
  eexists. split; reflexivity.
Qed.

(** The client used in the examples below is the one the constructor builds
    from [sample_config]. *)
Example constructor_sample :
  constructor (Some sample_config) empty_world
  = (Normal sample_client, empty_world).
Proof. reflexivity. Qed.

(** ** The request payload *)

Section Payload.

Lemma lookup_set_defined {A} (field : option A) (inj : A -> js_value)
    (key : string) (payload : gmap string js_value) :
  set_defined field inj key payload !! key
  = match field with Some v => Some (inj v) | None => payload !! key end.
Proof. destruct field; simpl; [apply lookup_insert_eq|reflexivity]. Qed.

Lemma lookup_set_defined_ne {A} (field : option A) (inj : A -> js_value)
    (key other : string) (payload : gmap string js_value) :
  key <> other ->
  set_defined field inj key payload !! other = payload !! other.
Proof.
  intros Hne. destruct field; simpl; [|reflexivity].
  now apply lookup_insert_ne.
Qed.

Lemma lookup_set_parse_mode (field : option jsstring)
    (payload : gmap string js_value) :
  set_parse_mode field payload !! "parse_mode"
  = match field with
    | Some (c :: m) => Some (JsString (c :: m))
    | _ => payload !! "parse_mode"
    end.
Proof.
  destruct field as [[|c m]|]; simpl; try reflexivity.
  apply lookup_insert_eq.
Qed.

Lemma lookup_set_parse_mode_ne (field : option jsstring) (other : string)
    (payload : gmap string js_value) :
  "parse_mode" <> other ->
  set_parse_mode field payload !! other = payload !! other.
Proof.
  intros Hne. destruct field as [[|c m]|]; simpl; try reflexivity.
  now apply lookup_insert_ne.
Qed.

Lemma lookup_required (a b : js_value) (key : string) :
  (<["text" := a]> (<["chat_id" := b]> ∅) : gmap string js_value) !! key
  = if decide (key = "text") then Some a
    else if decide (key = "chat_id") then Some b else None.
Proof.
  destruct (decide (key = "text")) as [->|Ht].
  - apply lookup_insert_eq.
  - rewrite lookup_insert_ne by congruence.
    destruct (decide (key = "chat_id")) as [->|Hc].
    + apply lookup_insert_eq.
    + rewrite lookup_insert_ne by congruence. apply lookup_empty.
Qed.

End Payload.

(** Rewrites a lookup in [build_payload] down to the assignment that decides
    it. *)
Ltac payload_lookup :=
  unfold build_payload;
  repeat first
    [ rewrite lookup_set_defined
    | rewrite lookup_set_defined_ne by (congruence || discriminate)
    | rewrite lookup_set_parse_mode
    | rewrite lookup_set_parse_mode_ne by (congruence || discriminate) ];
  rewrite ?lookup_required.

(** C2, as the code has it.  The body always carries [chat_id] and [text].
    [parse_mode] is present exactly when [parseMode] was set to a non-empty
    string, with that string as its value.  Each of [disable_notification],
    [protect_content], [reply_to_message_id], [message_thread_id] and
    [disable_web_page_preview] is present exactly when its option was set, with
    the value set (an explicit [false] included).  No other key is present,
    and with no options the keys are exactly [chat_id] and [text]. *)
Theorem payload_wire_keys (this : Telepush) (txt : jsstring)
    (options : PushOptions) :
  let body := build_payload this txt options in
  body !! "chat_id" = Some (chat_value (chatId this))
  /\ body !! "text" = Some (JsString txt)
  /\ body !! "parse_mode"
     = match parseMode options with
       | Some (c :: m) => Some (JsString (c :: m))
       | _ => None
       end
  /\ body !! "disable_notification"
     = JsBoolean <$> disableNotification options
  /\ body !! "protect_content" = JsBoolean <$> protectContent options
  /\ body !! "reply_to_message_id" = JsNumber <$> replyToMessageId options
  /\ body !! "message_thread_id" = JsNumber <$> messageThreadId options
  /\ body !! "disable_web_page_preview"
     = JsBoolean <$> disableWebPagePreview options
  /\ (forall key,
        ~ In key ["chat_id"; "text"; "parse_mode"; "disable_notification";
                  "protect_content"; "reply_to_message_id";
                  "message_thread_id"; "disable_web_page_preview"] ->
        body !! key = None)
  /\ dom (build_payload this txt no_options)
     = ({["chat_id"; "text"]} : gset string).
Proof.
  cbv zeta. repeat apply conj.
  - payload_lookup. reflexivity.
  - payload_lookup. reflexivity.
  - payload_lookup. now destruct (parseMode options) as [[|c m]|].
  - payload_lookup. now destruct (disableNotification options).
  - payload_lookup. now destruct (protectContent options).
  - payload_lookup. now destruct (replyToMessageId options).
  - payload_lookup. now destruct (messageThreadId options).
  - payload_lookup. now destruct (disableWebPagePreview options).
  - intros key Hkey. simpl in Hkey.
    unfold build_payload.
    rewrite !lookup_set_defined_ne, lookup_set_parse_mode_ne, lookup_required
      by (intros <-; tauto).
    repeat case_decide; subst; tauto.
  - unfold build_payload, no_options. simpl.
    rewrite !dom_insert_L, dom_empty_L. set_solver.
Qed.

(** C2 fails as stated: here the caller set [parseMode] (to the empty string)
    and the body has no [parse_mode] key. *)
Lemma empty_parse_mode_is_omitted :
  ~ (is_Some (build_payload sample_client (lit "hi") empty_mode_options
                !! "parse_mode")
     <-> is_Some (parseMode empty_mode_options)).
Proof.
  intros [_ Hset].
  destruct Hset as [v Hv]; [now exists []|].
  revert Hv. payload_lookup. discriminate.
Qed.

(** ** [push] *)

(** Runs [push] symbolically up to the first choice of the environment. *)
Ltac run_push :=
  unfold push, request_phase, fetch, arm_timer, on_finally, interpret,
    try_finally, try_catch, bind, new_AbortController, setTimeout_abort,
    clearTimeout, await_abortable, emit, on_catch, throw, ret;
  simpl.

Lemma push_on_accepted_text (this : Telepush) (net : Transport)
    (txt : jsstring) (options : PushOptions) :
  forallb is_white_space txt = false ->
  push this net txt options
  = (let* controller := new_AbortController in
     let* timeout := arm_timer controller (effective_timeout this options) in
     try_finally
       (try_catch
          (request_phase net (request_url this)
             (build_payload this txt options) controller)
          on_catch)
       (on_finally timeout)).
Proof.
  intros Hok. unfold push. now rewrite text_guard, Hok.
Qed.

(** C1.  When the text passes validation and the transport answers with a
    successful HTTP status and a decoded body with [ok = true] and a [result],
    [push] returns, and the value it returns has the [message_id], [date] and
    [text] of that [result]. *)
Theorem push_returns_result (this : Telepush) (net : Transport)
    (txt : jsstring) (options : PushOptions) (w : World)
    (response : Response.t) (data : TelegramResponse)
    (r : SendMessageResult) :
  forallb is_white_space txt = false ->
  net (request_url this) (build_payload this txt options) = Fulfils response ->
  Response.ok response = true ->
  Response.json response = Fulfils data ->
  ok data = true ->
  result data = Some r ->
  exists out,
    fst (push this net txt options w) = Normal out
    /\ message_id out = message_id r
    /\ date out = date r
    /\ text out = text r.
Proof.
  intros Htxt Hnet Hok Hjson Hdata Hres.
  exists r. split; [|now repeat split].
  rewrite push_on_accepted_text by exact Htxt.
  run_push. rewrite Hnet, Hjson, Hok, Hdata, Hres.
  destruct (effective_timeout this options) as [ms|]; simpl;
    [destruct (negb (ms =? 0) && (0 <? ms))|]; reflexivity.
Qed.

Lemma push_returns_result_witness :
  exists out,
    fst (push sample_client hello_transport (lit "hello") no_options
           empty_world) = Normal out
    /\ message_id out = 1
    /\ date out = 1700000000
    /\ text out = Some (lit "hello").
Proof.
  apply (push_returns_result sample_client hello_transport (lit "hello")
           no_options empty_world (http_response 200 (Fulfils hello_data))
           hello_data hello_result);
    reflexivity.
Defined.

(** *** Case analysis on a call *)

Lemma timer_condition (ms : Z) : negb (ms =? 0) && (0 <? ms) = (0 <? ms).
Proof.
  destruct (Z.ltb_spec 0 ms) as [Hlt|Hge]; [|apply andb_false_r].
  rewrite andb_true_r. destruct (Z.eqb_spec ms 0); [lia|reflexivity].
Qed.

Lemma abort_reason_name :
  bool_decide (lit "AbortError" = lit "AbortError") = true.
Proof. now apply bool_decide_eq_true_2. Qed.

Lemma disarm_head (h c : nat) (ts : list (nat * nat)) :
  disarm h ((h, c) :: ts) = disarm h ts.
Proof. unfold disarm. simpl. now rewrite Nat.eqb_refl. Qed.

Lemma disarm_removes (h : nat) (ts : list (nat * nat)) :
  ~ In h (List.map fst (disarm h ts)).
Proof.
  unfold disarm. rewrite in_map_iff. intros [[h' c] [Hfst Hin]].
  simpl in Hfst. subst h'. apply filter_In in Hin as [_ Hne].
  simpl in Hne. now rewrite Nat.eqb_refl in Hne.
Qed.

Lemma disarm_subset (h : nat) (ts : list (nat * nat)) (t : nat * nat) :
  In t (disarm h ts) -> In t ts.
Proof. unfold disarm. intros Hin. now apply filter_In in Hin. Qed.

(** Rewrites with every equation at hand and evaluates. *)
Ltac settle_known :=
  repeat (progress
            (cbn; rewrite ?timer_condition;
             repeat match goal with
                    | H : _ = _ |- _ => rewrite H
                    end;
             rewrite ?Nat.eqb_refl, ?disarm_head, ?abort_reason_name; cbn)).

Ltac unfold_push :=
  unfold request_phase, fetch, arm_timer, on_finally, interpret,
    try_finally, try_catch, bind, new_AbortController, setTimeout_abort,
    clearTimeout, await_abortable, emit, on_catch, throw, ret, timer_wanted.

(** One goal for each way a call with accepted text can go: the effective
    timeout (none, not positive, positive), what [fetch] does, what
    [response.json()] does, and the three checks on the decoded answer. *)
Ltac push_cases this net txt options :=
  destruct (effective_timeout this options) as [ms|] eqn:Heff;
    [destruct (0 <? ms) eqn:Hpos|];
  (destruct (net (request_url this) (build_payload this txt options))
     as [response|err|] eqn:Hnet;
   [ destruct (Response.json response) as [data|err|] eqn:Hjson;
     [ destruct (Response.ok response) eqn:Hok;
       [ destruct (ok data) eqn:Hdok; [destruct (result data) eqn:Hres|] |]
     | destruct err as [e|name msg|];
       [|destruct (bool_decide (name = lit "AbortError")) eqn:Hname|]
     | ]
   | destruct err as [e|name msg|];
     [|destruct (bool_decide (name = lit "AbortError")) eqn:Hname|]
   | ]);
  unfold_push; settle_known;
  try (destruct (List.find _ _) as [[h' c']|]; settle_known).

(** C3, as the code has it.  For an accepted text and a transport that
    delivers a response with a decoded body: if the HTTP status is not a
    success, [push] throws an error with the body's [description], or
    ["HTTP <status>"] when there is none, the status and the body's
    [error_code]; otherwise, if [ok] is false, an error with the
    [description], or ["Telegram API error"], the status and the [error_code];
    otherwise, if [result] is absent, an error with the message
    ["Telegram API returned no result"], the status and the [error_code]. *)
Theorem push_rejects_answer (this : Telepush) (net : Transport)
    (txt : jsstring) (options : PushOptions) (w : World)
    (response : Response.t) (data : TelegramResponse) :
  forallb is_white_space txt = false ->
  net (request_url this) (build_payload this txt options) = Fulfils response ->
  Response.json response = Fulfils data ->
  (Response.ok response = false ->
     fst (push this net txt options w)
     = Throw (ThrownTelepush
                {| message :=
                     match description data with
                     | Some d => d
                     | None =>
                         lit "HTTP "
                         ++ number_to_string (Response.status response)
                     end;
                   status := Some (Response.status response);
                   code := error_code data |}))
  /\ (Response.ok response = true -> ok data = false ->
        fst (push this net txt options w)
        = Throw (ThrownTelepush
                   {| message :=
                        match description data with
                        | Some d => d
                        | None => lit "Telegram API error"
                        end;
                      status := Some (Response.status response);
                      code := error_code data |}))
  /\ (Response.ok response = true -> ok data = true -> result data = None ->
        fst (push this net txt options w)
        = Throw (ThrownTelepush
                   {| message := lit "Telegram API returned no result";
                      status := Some (Response.status response);
                      code := error_code data |})).
Proof.
  intros Htxt Hnet Hjson.
  rewrite push_on_accepted_text by exact Htxt.
  repeat apply conj; intros;
    (destruct (effective_timeout this options) as [ms|];
       [destruct (0 <? ms) eqn:Hpos|]);
    unfold_push; settle_known; now destruct (description data).
Qed.

Lemma push_rejects_answer_witness :
  fst (push sample_client bad_request_transport (lit "hello") no_options
         empty_world)
  = Throw (ThrownTelepush
             {| message := lit "bad request"; status := Some 400;
                code := Some 400 |}).
Proof.
  apply (proj1 (push_rejects_answer sample_client bad_request_transport
                  (lit "hello") no_options empty_world
                  (http_response 400 (Fulfils bad_request_data))
                  bad_request_data eq_refl eq_refl eq_refl)).
  reflexivity.
Defined.

(** C3 fails as stated: for HTTP 200 with [{ok: false}] the message is
    ["Telegram API error"], not ["remote API error"]. *)
Lemma refused_answer_message :
  fst (push sample_client refused_transport (lit "hello") no_options
         empty_world)
  = Throw (ThrownTelepush
             {| message := lit "Telegram API error"; status := Some 200;
                code := None |})
  /\ fst (push sample_client refused_transport (lit "hello") no_options
            empty_world)
     <> Throw (ThrownTelepush
                 {| message := lit "remote API error"; status := Some 200;
                    code := None |}).
Proof.
  split; [reflexivity|].
  vm_compute. discriminate.
Qed.

Lemma forallb_false_exists (f : N -> bool) (s : jsstring) :
  (exists c, In c s /\ f c = false) -> forallb f s = false.
Proof.
  intros [c [Hin Hc]]. destruct (forallb f s) eqn:Hall; [|reflexivity].
  rewrite forallb_forall in Hall. rewrite (Hall c Hin) in Hc. discriminate.
Qed.

(** C5.  A text made of white space only (the empty text among them) makes
    [push] throw a validation error (no [status], no [code]) and leaves the
    world untouched: no timer, no request.  For a text with a character that
    is not white space, a request is issued, its body holds the text as given,
    untrimmed, and so does the body of every request the call logs. *)
Theorem push_text_validation (this : Telepush) (net : Transport)
    (txt : jsstring) (options : PushOptions) (w : World) :
  ((forall c, In c txt -> is_white_space c = true) ->
     push this net txt options w
     = (Throw (ThrownTelepush
                 {| message := lit "text must be a non-empty string";
                    status := None; code := None |}), w))
  /\ ((exists c, In c txt /\ is_white_space c = false) ->
        build_payload this txt options !! "text" = Some (JsString txt)
        /\ In (EvFetch (request_url this) (build_payload this txt options)
                 (next_controller w))
              (log (snd (push this net txt options w)))
        /\ (forall url body signal,
              In (EvFetch url body signal)
                 (log (snd (push this net txt options w))) ->
              In (EvFetch url body signal) (log w)
              \/ body !! "text" = Some (JsString txt))).
Proof.
  split.
  - intros Hall. apply forallb_forall in Hall.
    unfold push. now rewrite text_guard, Hall.
  - intros Hsome. apply forallb_false_exists in Hsome.
    assert (Htext : build_payload this txt options !! "text"
                    = Some (JsString txt)).
    { payload_lookup. reflexivity. }
    split; [exact Htext|].
    rewrite push_on_accepted_text by exact Hsome. clear Hsome.
    push_cases this net txt options.
    all: split; [rewrite ?in_app_iff; cbn; tauto|].
    all: intros url body signal Hin; rewrite ?in_app_iff in Hin; cbn in Hin.
    all: repeat match goal with
                | H : _ \/ _ |- _ => destruct H
                end;
      try contradiction; try discriminate; try (left; assumption).
    all: match goal with
         | H : EvFetch _ _ _ = EvFetch _ _ _ |- _ =>
             inversion H; subst; right; assumption
         end.
Qed.

Lemma fresh_find (w : World) :
  fresh_ids w = true ->
  List.find (fun t => Nat.eqb (snd t) (next_controller w)) (timers w) = None.
Proof.
  unfold fresh_ids. intros Hfresh.
  destruct (List.find _ (timers w)) as [t|] eqn:Hfind; [|reflexivity].
  apply find_some in Hfind as [Hin Heq].
  rewrite forallb_forall in Hfresh. specialize (Hfresh t Hin).
  apply andb_true_iff in Hfresh as [_ Hlt].
  apply Nat.eqb_eq in Heq. apply Nat.ltb_lt in Hlt. lia.
Qed.




(** C7.  Whenever the events of a call include the abort of its controller by
    the timer, [push] throws the error with the message ["Request timed out"]
    and neither [status] nor [code]. *)
Theorem push_times_out (this : Telepush) (net : Transport)
    (txt : jsstring) (options : PushOptions) (w : World)
    (evs : list event) :
  forallb is_white_space txt = false ->
  log (snd (push this net txt options w)) = log w ++ evs ->
  In (EvAbort (next_controller w)) evs ->
  fst (push this net txt options w)
  = Throw (ThrownTelepush
             {| message := lit "Request timed out"; status := None;
                code := None |}).
Proof.
  intros Htxt. revert evs.
  rewrite push_on_accepted_text by exact Htxt. clear Htxt.
  push_cases this net txt options.
  all: intros evs Hlog Hin; try reflexivity; exfalso.
  all: rewrite <- ?app_assoc in Hlog; apply app_inv_head in Hlog.
  all: subst evs; cbn in Hin.
  all: repeat match goal with
              | H : _ \/ _ |- _ => destruct H
              end;
    try contradiction; discriminate.
Qed.

Lemma push_times_out_witness :
  fst (push sample_client silent_transport (lit "hello") ten_ms_options
         empty_world)
  = Throw (ThrownTelepush
             {| message := lit "Request timed out"; status := None;
                code := None |}).
Proof.
  apply (push_times_out sample_client silent_transport (lit "hello")
           ten_ms_options empty_world
           [EvSetTimeout 0 0 10;
            EvFetch (request_url sample_client)
              (build_payload sample_client (lit "hello") ten_ms_options) 0;
            EvAbort 0;
            EvClearTimeout 0]).
  - reflexivity.
  - reflexivity.
  - simpl. tauto.
Defined.

(** C9.  The log of a call extends the log it started from.  Every timer the
    call armed is, at the end, no longer armed, and a [clearTimeout] for it
    was issued; a call that armed a timer always returns or throws.  The
    timers armed at the end were all armed before the call, so none of its
    own outlives it, on any path: success, remote rejection, transport
    failure, timeout, or rejected text. *)
Theorem push_releases_timer (this : Telepush) (net : Transport)
    (txt : jsstring) (options : PushOptions) (w : World) :
  exists evs,
    log (snd (push this net txt options w)) = log w ++ evs
    /\ (forall h c ms,
          In (EvSetTimeout h c ms) evs ->
          ~ In h (List.map fst (timers (snd (push this net txt options w))))
          /\ In (EvClearTimeout h) evs
          /\ fst (push this net txt options w) <> Pending)
    /\ (forall t,
          In t (timers (snd (push this net txt options w))) ->
          In t (timers w)).
Proof.
  destruct (forallb is_white_space txt) eqn:Htxt.
  - exists []. unfold push. rewrite text_guard, Htxt. cbn.
    rewrite app_nil_r.
    split; [reflexivity|split; [intros h c ms []|intros t Ht; exact Ht]].
  - rewrite push_on_accepted_text by exact Htxt. clear Htxt.
    push_cases this net txt options.
    all: rewrite <- ?app_assoc; cbn.
    all: eexists; split; [reflexivity|].
    all: split; [|intros t Hin; solve [eauto using disarm_subset]].
    all: intros h c t Hin; cbn in Hin.
    all: repeat match goal with
                | H : _ \/ _ |- _ => destruct H
                end;
      try contradiction; try discriminate.
    all: match goal with
         | H : EvSetTimeout _ _ _ = EvSetTimeout _ _ _ |- _ =>
             inversion H; subst
         end.
    all: split; [apply disarm_removes|split; [cbn; tauto|discriminate]].
Qed.

(** C10.  Whatever is thrown inside the [try] block of [push] reaches the
    caller as one [TelepushError]: a [TelepushError] (such as the ones thrown
    for a rejected answer) as it is; an [Error] named ["AbortError"] as the
    timeout error; any other [Error] as an error with its message and neither
    [status] nor [code]; anything else as the error ["Unknown error"]. *)
Theorem push_surfaces_telepush_error (this : Telepush) (net : Transport)
    (txt : jsstring) (options : PushOptions) (w w' : World) (err : thrown) :
  forallb is_white_space txt = false ->
  request_phase net (request_url this) (build_payload this txt options)
    (next_controller w)
    (snd (arm_timer (next_controller w) (effective_timeout this options)
            (snd (new_AbortController w))))
  = (Throw err, w') ->
  (forall e, err = ThrownTelepush e ->
     fst (push this net txt options w) = Throw (ThrownTelepush e))
  /\ (forall msg, err = ThrownError (lit "AbortError") msg ->
        fst (push this net txt options w)
        = Throw (ThrownTelepush
                   {| message := lit "Request timed out"; status := None;
                      code := None |}))
  /\ (forall name msg, err = ThrownError name msg ->
        name <> lit "AbortError" ->
        fst (push this net txt options w)
        = Throw (ThrownTelepush
                   {| message := msg; status := None; code := None |}))
  /\ (err = ThrownOther ->
        fst (push this net txt options w)
        = Throw (ThrownTelepush
                   {| message := lit "Unknown error"; status := None;
                      code := None |})).
Proof.
  intros Htxt Hphase.
  assert (Hpush :
    fst (push this net txt options w) = fst (on_catch err w')).
  { rewrite push_on_accepted_text by exact Htxt.
    revert Hphase.
    destruct (effective_timeout this options) as [ms|];
      [destruct (0 <? ms) eqn:Hpos|];
      unfold arm_timer, on_finally, try_finally, try_catch, bind,
        new_AbortController, setTimeout_abort, clearTimeout, ret, timer_wanted;
      cbn; rewrite ?timer_condition, ?Hpos; cbn;
      intros ->; destruct err as [e|name msg|]; cbn;
      try case_bool_decide; reflexivity. }
  rewrite Hpush. repeat apply conj.
  - intros e ->. reflexivity.
  - intros msg ->. cbn. now rewrite abort_reason_name.
  - intros name msg -> Hname. cbn. now rewrite bool_decide_eq_false_2.
  - intros ->. reflexivity.
Qed.

Lemma push_surfaces_telepush_error_witness :
  fst (push sample_client broken_transport (lit "hello") no_options
         empty_world)
  = Throw (ThrownTelepush
             {| message := lit "fetch failed"; status := None;
                code := None |}).
Proof.
  apply (proj1 (proj2 (proj2
           (push_surfaces_telepush_error sample_client broken_transport
              (lit "hello") no_options empty_world
              (emit (EvFetch (request_url sample_client)
                       (build_payload sample_client (lit "hello") no_options)
                       0)
                 (snd (new_AbortController empty_world)))
              (ThrownError (lit "TypeError") (lit "fetch failed"))
              eq_refl eq_refl)))
           (lit "TypeError") (lit "fetch failed") eq_refl).
  intros Hname. vm_compute in Hname. discriminate Hname.
Defined.

(** * Further properties of [push] and of the constructor *)

Lemma count_fetches_app (a b : list event) :
  count_fetches (a ++ b) = (count_fetches a + count_fetches b)%nat.
Proof.
  induction a as [|e a IH]; [reflexivity|].
  destruct e; simpl; rewrite IH; reflexivity.
Qed.

Lemma count_fetches_none (c h : nat) (evs : list event) :
  (forall e, In e evs -> e = EvAbort c \/ e = EvClearTimeout h) ->
  count_fetches evs = 0%nat.
Proof.
  induction evs as [|e evs IH]; intros Hall; [reflexivity|].
  destruct (Hall e (or_introl eq_refl)) as [-> | ->]; simpl;
    apply IH; intros e' He'; apply Hall; now right.
Qed.

(** What a call with accepted text logs: the arming of the timer when the
    effective timeout is positive, then the one request, then nothing but the
    abort of its controller and the clearing of its timer. *)
Lemma push_events (this : Telepush) (net : Transport)
    (txt : jsstring) (options : PushOptions) (w : World) :
  forallb is_white_space txt = false ->
  exists rest,
    log (snd (push this net txt options w))
    = log w
      ++ match effective_timeout this options with
         | Some ms =>
             if 0 <? ms
             then [EvSetTimeout (next_timer w) (next_controller w) ms]
             else []
         | None => []
         end
      ++ EvFetch (request_url this) (build_payload this txt options)
           (next_controller w) :: rest
    /\ (forall e, In e rest ->
          e = EvAbort (next_controller w)
          \/ e = EvClearTimeout (next_timer w)).
Proof.
  intros Htxt.
  rewrite push_on_accepted_text by exact Htxt. clear Htxt.
  push_cases this net txt options.
  all: rewrite <- ?app_assoc; cbn.
  all: eexists; split; [reflexivity|].
  all: intros ev Hin; cbn in Hin.
  all: repeat match goal with
              | H : _ \/ _ |- _ => destruct H
              end;
    try contradiction; subst; tauto.
Qed.

(** X1.  A call issues exactly one request when its text is accepted and
    none when it is rejected: no retry, whatever the transport does. *)
Theorem push_one_request (this : Telepush) (net : Transport)
    (txt : jsstring) (options : PushOptions) (w : World) :
  count_fetches (log (snd (push this net txt options w)))
  = (count_fetches (log w)
     + if forallb is_white_space txt then 0 else 1)%nat.
Proof.
  destruct (forallb is_white_space txt) eqn:Htxt.
  - unfold push. rewrite text_guard, Htxt. cbn. lia.
  - destruct (push_events this net txt options w Htxt) as [rest [Hlog Hrest]].
    rewrite Hlog, !count_fetches_app. cbn.
    rewrite (count_fetches_none _ _ rest Hrest).
    destruct (effective_timeout this options) as [ms|];
      [destruct (0 <? ms)|]; cbn; lia.
Qed.

Lemma fresh_disarm (w : World) :
  fresh_ids w = true -> disarm (next_timer w) (timers w) = timers w.
Proof.
  unfold fresh_ids, disarm. intros Hfresh.
  rewrite forallb_forall in Hfresh.
  induction (timers w) as [|t ts IH]; [reflexivity|].
  simpl. pose proof (Hfresh t (or_introl eq_refl)) as Ht.
  apply andb_true_iff in Ht as [Hlt _]. apply Nat.ltb_lt in Hlt.
  destruct (Nat.eqb_spec (fst t) (next_timer w)) as [Heq|_]; [lia|].
  simpl. f_equal. apply IH. intros t' Hin. apply Hfresh. now right.
Qed.

Lemma fresh_ids_grow (w : World) (nc nt : nat) (l : list event) :
  fresh_ids w = true ->
  (next_controller w <= nc)%nat -> (next_timer w <= nt)%nat ->
  fresh_ids {| next_controller := nc; next_timer := nt; timers := timers w;
               log := l |} = true.
Proof.
  unfold fresh_ids. cbn. rewrite !forallb_forall.
  intros Hfresh Hc Ht t Hin. specialize (Hfresh t Hin).
  apply andb_true_iff in Hfresh as [H1 H2].
  apply Nat.ltb_lt in H1, H2.
  apply andb_true_iff. split; apply Nat.ltb_lt; lia.
Qed.

(** X2.  In a world whose armed timers all have handles and controllers
    below the counters, a call leaves the set of armed timers exactly as it
    found it, whatever its outcome, and the world it leaves is again of that
    kind: calls do not disturb each other's timers. *)
Theorem push_keeps_other_timers (this : Telepush) (net : Transport)
    (txt : jsstring) (options : PushOptions) (w : World) :
  fresh_ids w = true ->
  timers (snd (push this net txt options w)) = timers w
  /\ fresh_ids (snd (push this net txt options w)) = true.
Proof.
  intros Hfresh.
  pose proof (fresh_find w Hfresh) as Hfind.
  pose proof (fresh_disarm w Hfresh) as Hdis.
  destruct (forallb is_white_space txt) eqn:Htxt.
  - unfold push. rewrite text_guard, Htxt. cbn. now split.
  - rewrite push_on_accepted_text by exact Htxt. clear Htxt.
    push_cases this net txt options.
    all: try discriminate.
    all: split; [reflexivity|].
    all: apply (fresh_ids_grow w); [exact Hfresh|lia|lia].
Qed.

Lemma push_keeps_other_timers_witness :
  timers (snd (push sample_client silent_transport (lit "hello")
                 ten_ms_options busy_world))
  = [(0%nat, 0%nat)]
  /\ fresh_ids (snd (push sample_client silent_transport (lit "hello")
                       ten_ms_options busy_world)) = true.
Proof.
  apply (push_keeps_other_timers sample_client silent_transport (lit "hello")
           ten_ms_options busy_world).
  reflexivity.
Defined.

(** X3.  A call never settles only in one situation: its text was accepted,
    no timer was wanted, and the request, or the reading of the answer's
    body, stalls.  In a world with fresh identifiers that situation always
    leaves the call pending. *)
Theorem push_pending_exactly (this : Telepush) (net : Transport)
    (txt : jsstring) (options : PushOptions) (w : World) :
  (fst (push this net txt options w) = Pending ->
     forallb is_white_space txt = false
     /\ timer_wanted (effective_timeout this options) = false
     /\ (net (request_url this) (build_payload this txt options) = Stalls
         \/ exists response,
              net (request_url this) (build_payload this txt options)
              = Fulfils response
              /\ Response.json response = Stalls))
  /\ (fresh_ids w = true ->
      forallb is_white_space txt = false ->
      timer_wanted (effective_timeout this options) = false ->
      (net (request_url this) (build_payload this txt options) = Stalls
       \/ exists response,
            net (request_url this) (build_payload this txt options)
            = Fulfils response
            /\ Response.json response = Stalls) ->
      fst (push this net txt options w) = Pending).
Proof.
  split.
  - destruct (forallb is_white_space txt) eqn:Htxt.
    + unfold push. rewrite text_guard, Htxt. discriminate.
    + rewrite push_on_accepted_text by exact Htxt. clear Htxt.
      push_cases this net txt options.
      all: intros Hp; try discriminate Hp.
      all: split; [reflexivity|split; [reflexivity|]].
      all: first [left; reflexivity | right; eauto].
  - intros Hfresh Htxt Hidle Hstall.
    pose proof (fresh_find w Hfresh) as Hfind.
    rewrite push_on_accepted_text by exact Htxt. clear Htxt.
    revert Hidle Hstall.
    push_cases this net txt options.
    all: try discriminate.
    all: intros Hidle Hstall; try discriminate Hidle; try reflexivity.
    all: exfalso; destruct Hstall as [Hs|[r [Hr Hs]]]; try discriminate.
    all: inversion Hr; subst; congruence.
Qed.

(** X4.  [push] returns a value only for an accepted text and an answer with
    a successful status whose decoded body has [ok] set and a [result]; the
    value returned is that [result]. *)
Theorem push_success_only_from_answer (this : Telepush) (net : Transport)
    (txt : jsstring) (options : PushOptions) (w : World)
    (r : SendMessageResult) :
  fst (push this net txt options w) = Normal r ->
  forallb is_white_space txt = false
  /\ exists response data,
       net (request_url this) (build_payload this txt options)
       = Fulfils response
       /\ Response.ok response = true
       /\ Response.json response = Fulfils data
       /\ ok data = true
       /\ result data = Some r.
Proof.
  destruct (forallb is_white_space txt) eqn:Htxt.
  - unfold push. rewrite text_guard, Htxt. discriminate.
  - rewrite push_on_accepted_text by exact Htxt. clear Htxt.
    push_cases this net txt options.
    all: intros Hr; try discriminate Hr.
    all: inversion Hr; subst; split; [reflexivity|].
    all: eexists _, _; repeat apply conj; eauto.
Qed.

Lemma push_success_only_from_answer_witness :
  forallb is_white_space (lit "hello") = false
  /\ exists response data,
       hello_transport (request_url sample_client)
         (build_payload sample_client (lit "hello") no_options)
       = Fulfils response
       /\ Response.ok response = true
       /\ Response.json response = Fulfils data
       /\ ok data = true
       /\ result data = Some hello_result.
Proof.
  apply (push_success_only_from_answer sample_client hello_transport
           (lit "hello") no_options empty_world hello_result).
  reflexivity.
Defined.

(** X5.  Whatever [push] throws is a [TelepushError]: never a bare [Error]
    of the platform, never a value that is not an [Error]. *)
Theorem push_throws_only_telepush_errors (this : Telepush) (net : Transport)
    (txt : jsstring) (options : PushOptions) (w : World) (x : thrown) :
  fst (push this net txt options w) = Throw x ->
  exists e, x = ThrownTelepush e.
Proof.
  destruct (forallb is_white_space txt) eqn:Htxt.
  - unfold push. rewrite text_guard, Htxt. cbn. intros Hx.
    inversion Hx. eauto.
  - rewrite push_on_accepted_text by exact Htxt. clear Htxt.
    push_cases this net txt options.
    all: intros Hx; try discriminate Hx.
    all: inversion Hx; eauto.
Qed.

Lemma push_throws_only_telepush_errors_witness :
  exists e,
    ThrownTelepush
      {| message := lit "fetch failed"; status := None; code := None |}
    = ThrownTelepush e.
Proof.
  apply (push_throws_only_telepush_errors sample_client broken_transport
           (lit "hello") no_options empty_world).
  reflexivity.
Defined.

(** X6.  When the transport itself never produces a [TelepushError], an
    error of [push] that carries a [status] was built from an answer that was
    received and decoded: its [status] is the HTTP status of that answer and
    its [code] the [error_code] of the body.  Validation, timeout and
    transport errors carry no [status]. *)
Theorem push_status_is_http_status (this : Telepush) (net : Transport)
    (txt : jsstring) (options : PushOptions) (w : World)
    (failure : TelepushError) (st : Z) :
  (forall e', net (request_url this) (build_payload this txt options)
              <> Rejects (ThrownTelepush e')) ->
  (forall response e',
     net (request_url this) (build_payload this txt options)
     = Fulfils response ->
     Response.json response <> Rejects (ThrownTelepush e')) ->
  fst (push this net txt options w) = Throw (ThrownTelepush failure) ->
  status failure = Some st ->
  exists response data,
    net (request_url this) (build_payload this txt options) = Fulfils response
    /\ Response.json response = Fulfils data
    /\ Response.status response = st
    /\ code failure = error_code data.
Proof.
  intros Hnet_ok Hjson_ok.
  destruct (forallb is_white_space txt) eqn:Htxt.
  - unfold push. rewrite text_guard, Htxt. cbn. intros Hx Hst.
    inversion Hx; subst. discriminate Hst.
  - rewrite push_on_accepted_text by exact Htxt. clear Htxt.
    revert Hnet_ok Hjson_ok.
    push_cases this net txt options.
    all: intros Hnet_ok Hjson_ok Hx Hst; try discriminate Hx.
    all: inversion Hx; subst; cbn in Hst; try discriminate Hst.
    all: try (exfalso; eapply Hnet_ok; reflexivity).
    all: try (exfalso; eapply Hjson_ok; [reflexivity|eassumption]).
    all: inversion Hst; subst; eexists _, _; repeat apply conj; eauto.
Qed.

Lemma push_status_is_http_status_witness :
  exists response data,
    bad_request_transport (request_url sample_client)
      (build_payload sample_client (lit "hello") no_options)
    = Fulfils response
    /\ Response.json response = Fulfils data
    /\ Response.status response = 400
    /\ Some 400 = error_code data.
Proof.
  apply (push_status_is_http_status sample_client bad_request_transport
           (lit "hello") no_options empty_world
           {| message := lit "bad request"; status := Some 400;
              code := Some 400 |} 400).
  - intros e'. discriminate.
  - intros response e' Hr. inversion Hr; subst. discriminate.
  - reflexivity.
  - reflexivity.
Defined.

(** X7.  The constructor checks the token first.  It throws the error
    ["botToken is required"] exactly when the token is absent or empty,
    whatever the chat id; it throws ["chatId is required"] exactly when the
    token is not empty and the chat id is absent, [null] or empty; and it
    throws nothing else. *)
Theorem constructor_error_message (config : option Config.t) (w : World) :
  ((exists e, fst (constructor config w) = Throw (ThrownTelepush e)
              /\ message e = lit "botToken is required")
   <-> (config_botToken config = None \/ config_botToken config = Some []))
  /\ ((exists e, fst (constructor config w) = Throw (ThrownTelepush e)
                 /\ message e = lit "chatId is required")
      <-> ((exists c token, config_botToken config = Some (c :: token))
           /\ (config_chatId config = ChatUndefined
               \/ config_chatId config = ChatNull
               \/ config_chatId config = ChatGiven (ChatString []))))
  /\ (forall x, fst (constructor config w) = Throw x ->
        exists e, x = ThrownTelepush e
                  /\ (message e = lit "botToken is required"
                      \/ message e = lit "chatId is required")).
Proof.
  unfold constructor.
  destruct (config_botToken config) as [[|a tok]|];
    [| destruct (config_chatId config) as [| |[[|b s]|n]] |]; cbn.
  all: repeat apply conj.
  all: try (intros x Hx; inversion Hx; subst; eexists; split;
            [reflexivity|cbn; tauto]).
  all: try (intros x Hx; discriminate Hx).
  all: try (intros _; eexists; split; reflexivity).
  all: try (intros _; split; [eauto|tauto]).
  all: try (intros _; tauto).
  all: try (intros (e & He & Hm); try discriminate He;
            inversion He; subst; cbn in Hm; discriminate Hm).
  all: try (intros [Hn|Hn]; discriminate Hn).
  all: try (intros [(c & token & Hc) _]; discriminate Hc).
  all: intros [_ [Hc|[Hc|Hc]]]; discriminate Hc.
Qed.

(** X8.  A client built by the constructor sends its request to
    [<base>/bot<token>/sendMessage], where [<base>] is
    ["https://api.telegram.org"] when the configuration has no base URL, the
    configured one with exactly one final slash removed when it ends in a
    slash (a base that ends in two slashes keeps one of them), and the
    configured one unchanged otherwise; the body carries the configured chat
    id, and the client keeps the configured default timeout as given. *)
Theorem constructed_client_request (c : Config.t) (w w1 : World)
    (client : Telepush) (net : Transport) (txt : jsstring)
    (options : PushOptions) :
  constructor (Some c) w = (Normal client, w1) ->
  forallb is_white_space txt = false ->
  exists token cid,
    Config.botToken c = Some token
    /\ Config.chatId c = ChatGiven cid
    /\ defaultTimeoutMs client = Config.defaultTimeoutMs c
    /\ In (EvFetch (request_url client) (build_payload client txt options)
             (next_controller w1))
          (log (snd (push client net txt options w1)))
    /\ build_payload client txt options !! "chat_id" = Some (chat_value cid)
    /\ (Config.apiBaseUrl c = None ->
          request_url client
          = lit "https://api.telegram.org/bot" ++ token ++ lit "/sendMessage")
    /\ (forall u, Config.apiBaseUrl c = Some (u ++ [slash]) ->
          request_url client = u ++ lit "/bot" ++ token ++ lit "/sendMessage")
    /\ (forall u, Config.apiBaseUrl c = Some u ->
          (forall v, u <> v ++ [slash]) ->
          request_url client = u ++ lit "/bot" ++ token ++ lit "/sendMessage").
Proof.
  intros Hnew Htxt.
  assert (Hsent :
    In (EvFetch (request_url client) (build_payload client txt options)
          (next_controller w1))
       (log (snd (push client net txt options w1)))).
  { destruct (push_events client net txt options w1 Htxt) as [rest [-> _]].
    rewrite !in_app_iff. right. right. now left. }
  revert Hnew Hsent. destruct c as [tok chat url dflt]. unfold constructor.
  cbn. destruct tok as [[|a tok]|]; try discriminate. cbn.
  destruct chat as [| |[[|b s]|n]]; try discriminate; cbn;
    intros Hnew Hsent; inversion Hnew; subst; clear Hnew.
  all: eexists _, _; repeat apply conj;
    [reflexivity|reflexivity|reflexivity|exact Hsent
    |payload_lookup; reflexivity| | | ].
  all: unfold request_url; cbn.
  all: try (intros ->; reflexivity).
  all: try (intros u ->; cbn; now rewrite replace_trailing_slash_strips).
  all: intros u -> Hno; cbn; now rewrite replace_trailing_slash_keeps.
Qed.

Lemma constructed_client_request_witness :
  exists token cid,
    Config.botToken slashed_config = Some token
    /\ Config.chatId slashed_config = ChatGiven cid
    /\ defaultTimeoutMs slashed_client = Config.defaultTimeoutMs slashed_config
    /\ In (EvFetch (request_url slashed_client)
             (build_payload slashed_client (lit "hello") no_options)
             (next_controller empty_world))
          (log (snd (push slashed_client hello_transport (lit "hello")
                       no_options empty_world)))
    /\ build_payload slashed_client (lit "hello") no_options !! "chat_id"
       = Some (chat_value cid)
    /\ (Config.apiBaseUrl slashed_config = None ->
          request_url slashed_client
          = lit "https://api.telegram.org/bot" ++ token ++ lit "/sendMessage")
    /\ (forall u, Config.apiBaseUrl slashed_config = Some (u ++ [slash]) ->
          request_url slashed_client
          = u ++ lit "/bot" ++ token ++ lit "/sendMessage")
    /\ (forall u, Config.apiBaseUrl slashed_config = Some u ->
          (forall v, u <> v ++ [slash]) ->
          request_url slashed_client
          = u ++ lit "/bot" ++ token ++ lit "/sendMessage").
Proof.
  apply (constructed_client_request slashed_config empty_world empty_world
           slashed_client hello_transport (lit "hello") no_options);
    reflexivity.
Defined.

(** * The command line *)

Section ArgumentLookup.

Variable flag : jsstring.

Lemma indexOf_from_absent (args : list jsstring) (i : Z) :
  ~ In flag args -> indexOf_from args flag i = -1.
Proof.
  revert i. induction args as [|a rest IH]; intros i Hno; [reflexivity|].
  simpl. case_bool_decide as Ha.
  - exfalso. apply Hno. now left.
  - apply IH. intros Hin. apply Hno. now right.
Qed.

Lemma indexOf_from_first (pre post : list jsstring) (i : Z) :
  ~ In flag pre ->
  indexOf_from (pre ++ flag :: post) flag i = i + Z.of_nat (length pre).
Proof.
  revert i. induction pre as [|a pre IH]; intros i Hno; simpl.
  - rewrite bool_decide_eq_true_2 by reflexivity. lia.
  - case_bool_decide as Ha.
    + exfalso. apply Hno. now left.
    + rewrite IH by (intros Hin; apply Hno; now right). lia.
Qed.

Lemma element_after (pre post : list jsstring) :
  element (pre ++ flag :: post) (0 + Z.of_nat (length pre) + 1)
  = post !! 0%nat.
Proof.
  unfold element.
  destruct (Z.ltb_spec (0 + Z.of_nat (length pre) + 1) 0) as [Hlt|_]; [lia|].
  replace (Z.to_nat (0 + Z.of_nat (length pre) + 1))
    with (length pre + 1)%nat by lia.
  rewrite lookup_app_r by lia.
  replace (length pre + 1 - length pre)%nat with 1%nat by lia.
  reflexivity.
Qed.

End ArgumentLookup.

(** X9.  [getArgValue flag] is the argument that follows the first
    occurrence of the flag, whatever that argument is; it is [undefined]
    when the flag does not occur, and when its first occurrence is the last
    argument. *)
Theorem getArgValue_first_occurrence (flag : jsstring) :
  (forall args, ~ In flag args -> getArgValue args flag = None)
  /\ (forall pre value post,
        ~ In flag pre ->
        getArgValue (pre ++ flag :: value :: post) flag = Some value)
  /\ (forall pre, ~ In flag pre -> getArgValue (pre ++ [flag]) flag = None).
Proof.
  unfold getArgValue, indexOf. repeat apply conj.
  - intros args Hno. now rewrite indexOf_from_absent.
  - intros pre value post Hno. rewrite indexOf_from_first by exact Hno.
    destruct (Z.eqb_spec (0 + Z.of_nat (length pre)) (-1)) as [Heq|_]; [lia|].
    now rewrite element_after.
  - intros pre Hno. rewrite indexOf_from_first by exact Hno.
    destruct (Z.eqb_spec (0 + Z.of_nat (length pre)) (-1)) as [Heq|_]; [lia|].
    now rewrite element_after.
Qed.

Section CommandLineFacts.

Variable Number : jsstring -> js_number.

(** The five ways through the script. *)
Lemma cli_cases (args : list jsstring) (env : Env) (net : Transport) :
  ((length args =? 0)%nat || includes args (lit "--help")
   || includes args (lit "-h") = true
   /\ cli Number args env net
      = {| printed := printHelp; ended := Exited 0;
           final_world := initial_world |})
  \/ ((length args =? 0)%nat || includes args (lit "--help")
      || includes args (lit "-h") = false
      /\ element args 0 <> Some (lit "send")
      /\ cli Number args env net
         = {| printed := Stderr (lit "Unknown command.") :: printHelp;
              ended := Exited 1; final_world := initial_world |})
  \/ ((length args =? 0)%nat || includes args (lit "--help")
      || includes args (lit "-h") = false
      /\ element args 0 = Some (lit "send")
      /\ (element args 1 = None \/ element args 1 = Some [])
      /\ cli Number args env net
         = {| printed := Stderr (lit "Message is required.") :: printHelp;
              ended := Exited 1; final_world := initial_world |})
  \/ ((length args =? 0)%nat || includes args (lit "--help")
      || includes args (lit "-h") = false
      /\ element args 0 = Some (lit "send")
      /\ (exists m msg, element args 1 = Some (m :: msg))
      /\ (nullish_option (getArgValue args (lit "--token"))
            (TELEGRAM_BOT_TOKEN env) = None
          \/ nullish_option (getArgValue args (lit "--token"))
               (TELEGRAM_BOT_TOKEN env) = Some []
          \/ nullish_option (getArgValue args (lit "--chat-id"))
               (TELEGRAM_CHAT_ID env) = None
          \/ nullish_option (getArgValue args (lit "--chat-id"))
               (TELEGRAM_CHAT_ID env) = Some [])
      /\ cli Number args env net
         = {| printed := Stderr (lit "Missing token or chat id.") :: printHelp;
              ended := Exited 1; final_world := initial_world |})
  \/ (exists m msg t tok c cid,
        (length args =? 0)%nat || includes args (lit "--help")
        || includes args (lit "-h") = false
        /\ element args 0 = Some (lit "send")
        /\ element args 1 = Some (m :: msg)
        /\ nullish_option (getArgValue args (lit "--token"))
             (TELEGRAM_BOT_TOKEN env) = Some (t :: tok)
        /\ nullish_option (getArgValue args (lit "--chat-id"))
             (TELEGRAM_CHAT_ID env) = Some (c :: cid)
        /\ cli Number args env net
           = match push {| botToken := t :: tok;
                           chatId := ChatString (c :: cid);
                           apiBaseUrl := lit "https://api.telegram.org";
                           defaultTimeoutMs := None |}
                     net (m :: msg) (cli_options Number args)
                     initial_world with
             | (Normal _, w') =>
                 {| printed := [Stdout (lit "sent")]; ended := Exited 0;
                    final_world := w' |}
             | (Throw err, w') =>
                 {| printed := [error_output err]; ended := Exited 1;
                    final_world := w' |}
             | (Pending, w') =>
                 {| printed := []; ended := Waiting; final_world := w' |}
             end).
Proof.
  unfold cli.
  destruct ((length args =? 0)%nat || includes args (lit "--help")
            || includes args (lit "-h")); [left; now split|].
  right. case_bool_decide as Hcmd; cbn; [|left; now repeat split].
  right. destruct (element args 1) as [[|m msg]|];
    [left; repeat split; auto| |left; repeat split; auto].
  right.
  destruct (nullish_option (getArgValue args (lit "--token"))
              (TELEGRAM_BOT_TOKEN env)) as [[|t tok]|];
    [left; repeat split; eauto 6| |left; repeat split; eauto 6].
  destruct (nullish_option (getArgValue args (lit "--chat-id"))
              (TELEGRAM_CHAT_ID env)) as [[|c cid]|];
    [left; repeat split; eauto 6| |left; repeat split; eauto 6].
  right. exists m, msg, t, tok, c, cid. repeat split. exact Hcmd.
Qed.

End CommandLineFacts.

(** [push] ends by returning, by throwing a [TelepushError], or not at
    all. *)
Lemma push_outcome_shape (this : Telepush) (net : Transport)
    (txt : jsstring) (options : PushOptions) (w : World) :
  match fst (push this net txt options w) with
  | Throw (ThrownError _ _) | Throw ThrownOther => False
  | _ => True
  end.
Proof.
  destruct (forallb is_white_space txt) eqn:Htxt.
  - unfold push. rewrite text_guard, Htxt. exact I.
  - rewrite push_on_accepted_text by exact Htxt. clear Htxt.
    push_cases this net txt options.
    all: exact I.
Qed.

Section CommandLineProperties.

Variable Number : jsstring -> js_number.

(** X10.  The help text alone on standard output, with exit code [0] and no
    effect on the world, is what the command line does when it has no
    argument or [--help] or [-h] occurs anywhere among the arguments, and
    only then. *)
Theorem cli_help (args : list jsstring) (env : Env) (net : Transport) :
  ((length args =? 0)%nat || includes args (lit "--help")
   || includes args (lit "-h") = true ->
   cli Number args env net
   = {| printed := printHelp; ended := Exited 0;
        final_world := initial_world |})
  /\ (printed (cli Number args env net) = printHelp ->
      (length args =? 0)%nat || includes args (lit "--help")
      || includes args (lit "-h") = true).
Proof.
  destruct (cli_cases Number args env net)
    as [[Ha Hr]|[(Ha & _ & Hr)|[(Ha & _ & _ & Hr)|[(Ha & _ & _ & _ & Hr)
       |(m & msg & t & tok & c & cid & Ha & _ & _ & _ & _ & Hr)]]]];
    rewrite Hr, Ha; split; try discriminate; try reflexivity.
  pose proof (push_outcome_shape
                {| botToken := t :: tok; chatId := ChatString (c :: cid);
                   apiBaseUrl := lit "https://api.telegram.org";
                   defaultTimeoutMs := None |}
                net (m :: msg) (cli_options Number args) initial_world)
    as Hshape.
  destruct (push _ net (m :: msg) (cli_options Number args) initial_world)
    as [[r|[e|name text|]|] w']; cbn in *; try discriminate;
    try contradiction.
Qed.

(** X11.  The process ends with code [0] or [1] and never with an uncaught
    exception.  Code [0] comes with the help text or with [sent] alone on
    standard output; code [1] always comes with a message on standard error,
    alone or followed by the help text; a process that never ends has
    printed nothing. *)
Theorem cli_endings (args : list jsstring) (env : Env) (net : Transport) :
  match ended (cli Number args env net) with
  | Exited exit_code =>
      (exit_code = 0
       /\ (printed (cli Number args env net) = printHelp
           \/ printed (cli Number args env net) = [Stdout (lit "sent")]))
      \/ (exit_code = 1
          /\ exists s,
               printed (cli Number args env net) = [Stderr s]
               \/ printed (cli Number args env net) = Stderr s :: printHelp)
  | Uncaught _ => False
  | Waiting => printed (cli Number args env net) = []
  end.
Proof.
  destruct (cli_cases Number args env net)
    as [[Ha Hr]|[(Ha & _ & Hr)|[(Ha & _ & _ & Hr)|[(Ha & _ & _ & _ & Hr)
       |(m & msg & t & tok & c & cid & Ha & _ & _ & _ & _ & Hr)]]]];
    rewrite Hr; cbn; eauto 7.
  pose proof (push_outcome_shape
                {| botToken := t :: tok; chatId := ChatString (c :: cid);
                   apiBaseUrl := lit "https://api.telegram.org";
                   defaultTimeoutMs := None |}
                net (m :: msg) (cli_options Number args) initial_world)
    as Hshape.
  destruct (push _ net (m :: msg) (cli_options Number args) initial_world)
    as [[r|[e|name text|]|] w']; cbn in *; try contradiction; eauto 7.
Qed.

(** X12.  When both [--token] and [--chat-id] are followed by an argument,
    the environment variables play no part, even if that argument is the
    empty string. *)
Theorem cli_flags_override_env (args : list jsstring) (env env' : Env)
    (net : Transport) (token chat : jsstring) :
  getArgValue args (lit "--token") = Some token ->
  getArgValue args (lit "--chat-id") = Some chat ->
  cli Number args env net = cli Number args env' net.
Proof.
  intros Htoken Hchat. unfold cli. now rewrite Htoken, Hchat.
Qed.

(** X13.  An empty value after [--token] or [--chat-id] is not replaced by
    the environment variable: a [send] with a message then stops with
    ["Missing token or chat id."], the help text, exit code [1], and no
    request. *)
Theorem cli_empty_flag_value (args : list jsstring) (env : Env)
    (net : Transport) (m : N) (msg : jsstring) :
  (length args =? 0)%nat || includes args (lit "--help")
  || includes args (lit "-h") = false ->
  element args 0 = Some (lit "send") ->
  element args 1 = Some (m :: msg) ->
  getArgValue args (lit "--token") = Some []
  \/ getArgValue args (lit "--chat-id") = Some [] ->
  cli Number args env net
  = {| printed := Stderr (lit "Missing token or chat id.") :: printHelp;
       ended := Exited 1; final_world := initial_world |}.
Proof.
  intros Ha Hcmd Hmsg Hempty. unfold cli.
  rewrite Ha, Hcmd, Hmsg. rewrite bool_decide_eq_true_2 by reflexivity. cbn.
  destruct Hempty as [-> | ->]; cbn; [reflexivity|].
  now destruct (nullish_option _ _) as [[|t tok]|].
Qed.

(** X14.  A message made of white space only passes the check of the
    command line and is refused by [push]: the process prints
    ["text must be a non-empty string"] on standard error and ends with code
    [1] without any request. *)
Theorem cli_blank_message (args : list jsstring) (env : Env)
    (net : Transport) (m t c : N) (msg tok cid : jsstring) :
  (length args =? 0)%nat || includes args (lit "--help")
  || includes args (lit "-h") = false ->
  element args 0 = Some (lit "send") ->
  element args 1 = Some (m :: msg) ->
  nullish_option (getArgValue args (lit "--token")) (TELEGRAM_BOT_TOKEN env)
  = Some (t :: tok) ->
  nullish_option (getArgValue args (lit "--chat-id")) (TELEGRAM_CHAT_ID env)
  = Some (c :: cid) ->
  forallb is_white_space (m :: msg) = true ->
  cli Number args env net
  = {| printed := [Stderr (lit "text must be a non-empty string")];
       ended := Exited 1; final_world := initial_world |}.
Proof.
  intros Ha Hcmd Hmsg Htoken Hchat Hblank. unfold cli.
  rewrite Ha, Hcmd, Hmsg, Htoken, Hchat.
  rewrite bool_decide_eq_true_2 by reflexivity. cbn -[push].
  unfold push. now rewrite text_guard, Hblank.
Qed.

End CommandLineProperties.

Lemma cli_flags_override_env_witness :
  cli decimal_ten sample_args sample_env hello_transport
  = cli decimal_ten sample_args no_env hello_transport.
Proof.
  apply (cli_flags_override_env decimal_ten sample_args sample_env no_env
           hello_transport (lit "abc") (lit "42"));
    reflexivity.
Defined.

Lemma cli_empty_flag_value_witness :
  cli decimal_ten empty_token_args sample_env hello_transport
  = {| printed := Stderr (lit "Missing token or chat id.") :: printHelp;
       ended := Exited 1; final_world := initial_world |}.
Proof.
  apply (cli_empty_flag_value decimal_ten empty_token_args sample_env
           hello_transport 104%N (lit "ello"));
    [reflexivity|reflexivity|reflexivity|left; reflexivity].
Defined.

Lemma cli_blank_message_witness :
  cli decimal_ten blank_args no_env hello_transport
  = {| printed := [Stderr (lit "text must be a non-empty string")];
       ended := Exited 1; final_world := initial_world |}.
Proof.
  apply (cli_blank_message decimal_ten blank_args no_env hello_transport
           32%N 97%N 52%N [] (lit "bc") (lit "2"));
    reflexivity.
Defined.

Section CommandLineRequests.

Variable Number : jsstring -> js_number.

(** The log of a run is empty, or it is the log of the one call to [push]
    that the run made with an accepted message. *)
Lemma cli_log (args : list jsstring) (env : Env) (net : Transport) :
  log (final_world (cli Number args env net)) = []
  \/ exists m msg t tok c cid rest,
       ((length args =? 0)%nat || includes args (lit "--help")
        || includes args (lit "-h") = false
        /\ element args 0 = Some (lit "send")
        /\ element args 1 = Some (m :: msg)
        /\ forallb is_white_space (m :: msg) = false
        /\ nullish_option (getArgValue args (lit "--token"))
             (TELEGRAM_BOT_TOKEN env) = Some (t :: tok)
        /\ nullish_option (getArgValue args (lit "--chat-id"))
             (TELEGRAM_CHAT_ID env) = Some (c :: cid))
       /\ log (final_world (cli Number args env net))
          = match timeoutMs (cli_options Number args) with
            | Some ms => if 0 <? ms then [EvSetTimeout 0 0 ms] else []
            | None => []
            end
            ++ EvFetch
                 (lit "https://api.telegram.org/bot" ++ (t :: tok)
                  ++ lit "/sendMessage")
                 (build_payload
                    {| botToken := t :: tok; chatId := ChatString (c :: cid);
                       apiBaseUrl := lit "https://api.telegram.org";
                       defaultTimeoutMs := None |}
                    (m :: msg) (cli_options Number args))
                 0 :: rest
       /\ (forall e, In e rest -> e = EvAbort 0 \/ e = EvClearTimeout 0).
Proof.
  destruct (cli_cases Number args env net)
    as [[Ha Hr]|[(Ha & _ & Hr)|[(Ha & _ & _ & Hr)|[(Ha & _ & _ & _ & Hr)
       |(m & msg & t & tok & c & cid & Ha & Hcmd & Hmsg & Htok & Hchat
         & Hr)]]]];
    rewrite Hr; try (left; reflexivity).
  set (client := {| botToken := t :: tok; chatId := ChatString (c :: cid);
                    apiBaseUrl := lit "https://api.telegram.org";
                    defaultTimeoutMs := None |}).
  assert (Hworld :
    final_world
      match push client net (m :: msg) (cli_options Number args)
              initial_world with
      | (Normal _, w') =>
          {| printed := [Stdout (lit "sent")]; ended := Exited 0;
             final_world := w' |}
      | (Throw err, w') =>
          {| printed := [error_output err]; ended := Exited 1;
             final_world := w' |}
      | (Pending, w') =>
          {| printed := []; ended := Waiting; final_world := w' |}
      end
    = snd (push client net (m :: msg) (cli_options Number args)
             initial_world)).
  { now destruct (push client net (m :: msg) (cli_options Number args)
                    initial_world) as [[r|err|] w']. }
  rewrite Hworld. clear Hworld Hr.
  destruct (forallb is_white_space (m :: msg)) eqn:Hblank.
  - left. unfold push. now rewrite text_guard, Hblank.
  - right.
    destruct (push_events client net (m :: msg) (cli_options Number args)
                initial_world Hblank) as [rest [Hlog Hrest]].
    exists m, msg, t, tok, c, cid, rest.
    split; [now repeat split|]. split; [|exact Hrest].
    rewrite Hlog. cbn [log initial_world app next_timer next_controller].
    unfold effective_timeout. cbn [defaultTimeoutMs client].
    now destruct (timeoutMs (cli_options Number args)).
Qed.

(** X15.  A run makes at most one request, and makes one only for the
    command [send] with a message that has a character other than white
    space and with a non-empty token and chat id, each taken from its flag or
    else from the environment.  The request goes to
    [https://api.telegram.org/bot<token>/sendMessage], and its body carries
    the chat id as a string and the message as given. *)
Theorem cli_requests (args : list jsstring) (env : Env) (net : Transport) :
  (count_fetches (log (final_world (cli Number args env net))) <= 1)%nat
  /\ forall url body signal,
       In (EvFetch url body signal)
          (log (final_world (cli Number args env net))) ->
       (length args =? 0)%nat || includes args (lit "--help")
       || includes args (lit "-h") = false
       /\ element args 0 = Some (lit "send")
       /\ exists msg token chat,
            element args 1 = Some msg
            /\ forallb is_white_space msg = false
            /\ nullish_option (getArgValue args (lit "--token"))
                 (TELEGRAM_BOT_TOKEN env) = Some token
            /\ token <> []
            /\ nullish_option (getArgValue args (lit "--chat-id"))
                 (TELEGRAM_CHAT_ID env) = Some chat
            /\ chat <> []
            /\ url = lit "https://api.telegram.org/bot" ++ token
                     ++ lit "/sendMessage"
            /\ body !! "chat_id" = Some (JsString chat)
            /\ body !! "text" = Some (JsString msg).
Proof.
  destruct (cli_log args env net)
    as [Hlog|(m & msg & t & tok & c & cid & rest
              & (Ha & Hcmd & Hmsg & Htxt & Htok & Hchat) & Hlog & Hrest)];
    rewrite Hlog.
  - split; [cbn; lia|]. intros url body signal [].
  - split.
    + rewrite count_fetches_app.
      destruct (timeoutMs (cli_options Number args)) as [ms|];
        [destruct (0 <? ms)|]; cbn;
        rewrite (count_fetches_none _ _ rest Hrest); lia.
    + intros url body signal Hin.
      assert (Hev :
        EvFetch url body signal
        = EvFetch
            (lit "https://api.telegram.org/bot" ++ (t :: tok)
             ++ lit "/sendMessage")
            (build_payload
               {| botToken := t :: tok; chatId := ChatString (c :: cid);
                  apiBaseUrl := lit "https://api.telegram.org";
                  defaultTimeoutMs := None |}
               (m :: msg) (cli_options Number args))
            0).
      { apply in_app_or in Hin as [Hin|[Hin|Hin]].
        - destruct (timeoutMs (cli_options Number args)) as [ms|];
            [destruct (0 <? ms)|]; cbn in Hin;
            repeat match goal with
                   | H : _ \/ _ |- _ => destruct H
                   end; try contradiction; discriminate.
        - now symmetry.
        - destruct (Hrest _ Hin); discriminate. }
      inversion Hev; subst. clear Hev Hin.
      split; [exact Ha|]. split; [exact Hcmd|].
      exists (m :: msg), (t :: tok), (c :: cid).
      repeat apply conj; try assumption; try discriminate;
        try reflexivity; payload_lookup; reflexivity.
Qed.

(** X16.  In the body of a request made by the command line,
    [disable_notification] is present exactly when [--silent] occurs among
    the arguments, and then it is [true]; [parse_mode] is the non-empty
    argument that follows [--parse-mode], if any; the four other optional
    keys are never present. *)
Theorem cli_request_options (args : list jsstring) (env : Env)
    (net : Transport) (url : jsstring) (body : gmap string js_value)
    (signal : nat) :
  In (EvFetch url body signal)
     (log (final_world (cli Number args env net))) ->
  body !! "disable_notification"
  = (if includes args (lit "--silent") then Some (JsBoolean true) else None)
  /\ body !! "parse_mode"
     = match getArgValue args (lit "--parse-mode") with
       | Some (c :: mode) => Some (JsString (c :: mode))
       | _ => None
       end
  /\ body !! "protect_content" = None
  /\ body !! "reply_to_message_id" = None
  /\ body !! "message_thread_id" = None
  /\ body !! "disable_web_page_preview" = None.
Proof.
  destruct (cli_log args env net)
    as [Hlog|(m & msg & t & tok & c & cid & rest & _ & Hlog & Hrest)];
    rewrite Hlog; [intros []|].
  intros Hin.
  assert (Hev :
    EvFetch url body signal
    = EvFetch
        (lit "https://api.telegram.org/bot" ++ (t :: tok)
         ++ lit "/sendMessage")
        (build_payload
           {| botToken := t :: tok; chatId := ChatString (c :: cid);
              apiBaseUrl := lit "https://api.telegram.org";
              defaultTimeoutMs := None |}
           (m :: msg) (cli_options Number args))
        0).
  { apply in_app_or in Hin as [Hin|[Hin|Hin]].
    - destruct (timeoutMs (cli_options Number args)) as [ms|];
        [destruct (0 <? ms)|]; cbn in Hin;
        repeat match goal with
               | H : _ \/ _ |- _ => destruct H
               end; try contradiction; discriminate.
    - now symmetry.
    - destruct (Hrest _ Hin); discriminate. }
  inversion Hev; subst. clear Hev Hin.
  repeat apply conj; payload_lookup; cbn; try reflexivity.
  now destruct (includes args (lit "--silent")).
Qed.

End CommandLineRequests.

Lemma cli_request_options_witness :
  build_payload
    {| botToken := lit "abc"; chatId := ChatString (lit "42");
       apiBaseUrl := lit "https://api.telegram.org";
       defaultTimeoutMs := None |}
    (lit "hello") (cli_options decimal_ten sample_args)
  !! "disable_notification"
  = Some (JsBoolean true).
Proof.
  apply (cli_request_options decimal_ten sample_args no_env hello_transport
           (lit "https://api.telegram.org/botabc/sendMessage")
           (build_payload
              {| botToken := lit "abc"; chatId := ChatString (lit "42");
                 apiBaseUrl := lit "https://api.telegram.org";
                 defaultTimeoutMs := None |}
              (lit "hello") (cli_options decimal_ten sample_args))
           0%nat).
  right. left. reflexivity.
Defined.

(** * The example program *)

(** X18.  Without a non-empty [TELEGRAM_BOT_TOKEN] the example program ends
    with the uncaught error ["botToken is required"], and with a token but no
    non-empty [TELEGRAM_CHAT_ID] with ["chatId is required"], in both cases
    before any request.  With both set it makes exactly one request, to
    [https://api.telegram.org/bot<token>/sendMessage], whose body has the
    chat id as a string and the fixed text. *)
Theorem example_program_outcome (env : Env) (net : Transport) :
  (TELEGRAM_BOT_TOKEN env = None \/ TELEGRAM_BOT_TOKEN env = Some [] ->
     example_program env net
     = {| printed := [];
          ended := Uncaught (validation_error "botToken is required");
          final_world := initial_world |})
  /\ (forall t tok,
        TELEGRAM_BOT_TOKEN env = Some (t :: tok) ->
        TELEGRAM_CHAT_ID env = None \/ TELEGRAM_CHAT_ID env = Some [] ->
        example_program env net
        = {| printed := [];
             ended := Uncaught (validation_error "chatId is required");
             final_world := initial_world |})
  /\ (forall t tok c cid,
        TELEGRAM_BOT_TOKEN env = Some (t :: tok) ->
        TELEGRAM_CHAT_ID env = Some (c :: cid) ->
        count_fetches (log (final_world (example_program env net))) = 1%nat
        /\ exists body rest,
             log (final_world (example_program env net))
             = EvFetch
                 (lit "https://api.telegram.org/bot" ++ (t :: tok)
                  ++ lit "/sendMessage") body 0 :: rest
             /\ body !! "chat_id" = Some (JsString (c :: cid))
             /\ body !! "text"
                = Some (JsString (lit "Example: hello from telepush"))).
Proof.
  destruct env as [token chat]. unfold example_program, example_config. cbn.
  repeat apply conj.
  - intros [-> | ->]; reflexivity.
  - intros t tok -> [-> | ->]; reflexivity.
  - intros t tok c cid -> ->.
    unfold constructor. cbn -[push].
    set (client := {| botToken := t :: tok; chatId := ChatString (c :: cid);
                      apiBaseUrl := replace_trailing_slash default_api_base;
                      defaultTimeoutMs := None |}).
    assert (Hworld :
      final_world
        match push client net (lit "Example: hello from telepush")
                no_options initial_world with
        | (Normal _, w') =>
            {| printed := []; ended := Exited 0; final_world := w' |}
        | (Throw err, w') =>
            {| printed := []; ended := Uncaught err; final_world := w' |}
        | (Pending, w') =>
            {| printed := []; ended := Waiting; final_world := w' |}
        end
      = snd (push client net (lit "Example: hello from telepush")
               no_options initial_world)).
    { now destruct (push client net _ no_options initial_world)
        as [[r|err|] w']. }
    rewrite Hworld. clear Hworld.
    destruct (push_events client net (lit "Example: hello from telepush")
                no_options initial_world eq_refl) as [rest [Hlog Hrest]].
    rewrite Hlog. cbn [log initial_world app next_timer next_controller].
    unfold effective_timeout. cbn [timeoutMs no_options defaultTimeoutMs
                                     client app].
    split.
    + cbn. now rewrite (count_fetches_none _ _ rest Hrest).
    + eexists _, rest. split; [reflexivity|].
      split; payload_lookup; reflexivity.
Qed.
